(** * Real-time telemetry fan-out of the vehicle-diagnostics backend

    A shallow embedding of the socket handlers of [src/server.js]
    (the [vehicleConnections] registry and the ['performance-data'] ingest)
    and of the REST ingest [router.post('/')] of
    [src/routes/performanceData.js], followed by the properties of the
    specification stated over them.  The read routes of the same file
    (the aggregation query and the date window of [GET /:id]) and the
    [authenticateToken] middleware in front of them are embedded as
    well. *)

From stdpp Require Import gmap strings list fin_maps pretty.
From Stdlib Require Import ZArith.

Local Open Scope string_scope.

(** ** JavaScript values *)

(** The primitive values a client can put on the wire.  Numbers are carried
    as integers: the handlers never compute with a reading, they only test
    its truthiness and copy it.  An object or array sent where a vehicle id
    or a reading is expected is not modelled. *)
Inductive jsval : Type :=
  | JUndefined
  | JNull
  | JBool (b : bool)
  | JNum (n : Z)
  | JStr (s : string).

#[global] Instance jsval_eq_dec : EqDecision jsval.
Proof. solve_decision. Defined.

Definition jsval_code (v : jsval) : unit + (unit + (bool + (Z + string))) :=
  match v with
  | JUndefined => inl ()
  | JNull => inr (inl ())
  | JBool b => inr (inr (inl b))
  | JNum n => inr (inr (inr (inl n)))
  | JStr s => inr (inr (inr (inr s)))
  end.

Definition jsval_decode (c : unit + (unit + (bool + (Z + string)))) : jsval :=
  match c with
  | inl _ => JUndefined
  | inr (inl _) => JNull
  | inr (inr (inl b)) => JBool b
  | inr (inr (inr (inl n))) => JNum n
  | inr (inr (inr (inr s))) => JStr s
  end.

#[global] Instance jsval_countable : Countable jsval.
Proof.
  apply (inj_countable' jsval_code jsval_decode).
  intros []; reflexivity.
Defined.

(** [!v] is [negb (truthy v)]. *)
Definition truthy (v : jsval) : bool :=
  match v with
  | JUndefined | JNull => false
  | JBool b => b
  | JNum n => negb (n =? 0)%Z
  | JStr s => negb (String.eqb s EmptyString)
  end.

(** [a || b] *)
Definition js_or (a b : jsval) : jsval := if truthy a then a else b.

(** [a === b] on primitives. *)
Definition strict_eq (a b : jsval) : bool := bool_decide (a = b).

(** The text a template literal [`${v}`] puts for [v]. *)
Definition to_string (v : jsval) : string :=
  match v with
  | JUndefined => "undefined"
  | JNull => "null"
  | JBool true => "true"
  | JBool false => "false"
  | JNum n => pretty n
  | JStr s => s
  end.

(** A plain object: own keys to primitive values.  Reading a key that is
    not there gives [undefined]. *)
Abbreviation object := (gmap string jsval).

Definition prop (o : object) (k : string) : jsval := default JUndefined (o !! k).

(** What travels as the argument of an event: a primitive or an object. *)
Inductive payload : Type :=
  | PVal (v : jsval)
  | PObj (o : object).

(** Property read on a string primitive, as in [ws.readyState] when [ws] is
    a socket id: only [length] is an own property. *)
Definition string_prop (s : string) (k : string) : jsval :=
  if String.eqb k "length" then JNum (Z.of_nat (String.length s)) else JUndefined.

(** ** Effects of a handler *)

(** Outcome of [supabase.from(..).insert([row]).select().single()]:
    [{data, error: null}], [{error}], or a rejected promise. *)
Inductive outcome : Type :=
  | Stored (data : object)
  | Failed (error : string)
  | Threw (message : string).

(** What a handler does to the outside, in program order.  Calls to the
    logger are left out. *)
Inductive effect : Type :=
  | Join (sid room : string)
  | Leave (sid room : string)
  | Emit (sid event : string) (p : payload)
  | DbInsert (table : string) (row : object)
  | Respond (status : nat) (success : bool) (message timestamp : string)
            (data : option object)
  | WsSend (ws : string) (message : object).

(** ** The connection registry *)

(** [vehicleConnections = new Map()]: vehicle id to the [Set] of socket
    ids.  The sets are shared objects: a mutation of a set read with
    [get] is a mutation of the entry, written here as an update of the
    entry. *)
Abbreviation registry := (gmap jsval (gset string)).

Definition room_of (vehicleId : jsval) : string := "vehicle-" ++ to_string vehicleId.

(** Lines 97-100 of [server.js]. *)
Definition subscribe (vehicleId : jsval) (sid : string) (vc : registry) : registry :=
  let vc1 := if bool_decide (is_Some (vc !! vehicleId)) then vc
             else <[vehicleId := ∅]> vc in
  match vc1 !! vehicleId with
  | Some connections => <[vehicleId := {[sid]} ∪ connections]> vc1
  | None => vc1
  end.

(** Lines 111-117 of [server.js]. *)
Definition unsubscribe (vehicleId : jsval) (sid : string) (vc : registry) : registry :=
  match vc !! vehicleId with
  | Some connections =>
      let connections' := connections ∖ {[sid]} in
      if bool_decide (size connections' = 0)
      then delete vehicleId vc
      else <[vehicleId := connections']> vc
  | None => vc
  end.

(** The body of the [forEach] callback of the disconnect handler. *)
Definition drop_step (sid : string) (vehicleId : jsval)
    (connections : gset string) (vc : registry) : registry :=
  if bool_decide (sid ∈ connections) then
    let connections' := connections ∖ {[sid]} in
    if bool_decide (size connections' = 0)
    then delete vehicleId vc
    else <[vehicleId := connections']> vc
  else vc.

(** Lines 192-199 of [server.js]: [forEach] visits every entry of the map
    once; the only entry the callback deletes is the one being visited. *)
Definition dropConnection (sid : string) (vc : registry) : registry :=
  map_fold (drop_step sid) vc vc.

(** [vehicleConnections.get(v)], read as a set. *)
Definition subscribersOf (vc : registry) (vehicleId : jsval) : gset string :=
  default ∅ (vc !! vehicleId).

Definition trackedVehicles (vc : registry) : gset jsval := dom vc.

(** ** Socket handlers of the registry *)

Definition on_subscribe_vehicle (sid : string) (vehicleId : jsval) (vc : registry)
    : registry * list effect :=
  if negb (truthy vehicleId) then
    (vc, [Emit sid "error" (PVal (JStr "Vehicle ID is required"))])
  else
    (subscribe vehicleId sid vc,
     [Join sid (room_of vehicleId);
      Emit sid "subscribed"
        (PObj {[ "vehicleId" := vehicleId;
                 "message" := JStr "Successfully subscribed to vehicle updates" ]})]).

Definition on_unsubscribe_vehicle (sid : string) (vehicleId : jsval) (vc : registry)
    : registry * list effect :=
  if truthy vehicleId then
    (unsubscribe vehicleId sid vc,
     [Leave sid (room_of vehicleId);
      Emit sid "unsubscribed" (PObj {[ "vehicleId" := vehicleId ]})])
  else (vc, []).

Definition on_disconnect (sid : string) (vc : registry) : registry * list effect :=
  (dropConnection sid vc, []).

(** A connection event that reaches the registry. *)
Inductive event : Type :=
  | SubscribeVehicle (sid : string) (vehicleId : jsval)
  | UnsubscribeVehicle (sid : string) (vehicleId : jsval)
  | Disconnect (sid : string).

Definition handle (ev : event) (vc : registry) : registry * list effect :=
  match ev with
  | SubscribeVehicle sid v => on_subscribe_vehicle sid v vc
  | UnsubscribeVehicle sid v => on_unsubscribe_vehicle sid v vc
  | Disconnect sid => on_disconnect sid vc
  end.

(** The single-threaded event loop: events are handled one after another. *)
Fixpoint run (evs : list event) (vc : registry) : registry :=
  match evs with
  | [] => vc
  | ev :: evs' => run evs' (handle ev vc).1
  end.

(** ** Ingest over the socket: [socket.on('performance-data')] *)

(** The destructuring [const { vehicle_id, rpm, ... } = data]: it throws on
    [undefined] and [null]; on any other primitive every name is
    [undefined]. *)
Definition destructure (data : payload) : option object :=
  match data with
  | PVal JUndefined | PVal JNull => None
  | PVal _ => Some ∅
  | PObj o => Some o
  end.

Definition performance_table : string := "vehicle_performance_data".

(** Lines 146-157 of [server.js]. *)
Definition socket_row (o : object) (now : string) : object :=
  {[ "vehicle_id" := prop o "vehicle_id";
     "rpm" := js_or (prop o "rpm") JNull;
     "speed" := js_or (prop o "speed") JNull;
     "batteryVoltage" := js_or (prop o "batteryVoltage") JNull;
     "fuelTankLevel" := js_or (prop o "fuelTankLevel") JNull;
     "intakeAirTemp" := js_or (prop o "intakeAirTemp") JNull;
     "coolantTemp" := js_or (prop o "coolantTemp") JNull;
     "engineTemp" := js_or (prop o "engineTemp") JNull;
     "fuelConsumption" := js_or (prop o "fuelConsumption") JNull;
     "timestamp" := JStr now ]}.

(** The handler for the connection [sid]; [now] is what
    [new Date().toISOString()] returns and [insert] is the gateway. *)
Definition on_performance_data (sid : string) (now : string)
    (insert : object → outcome) (data : payload) : list effect :=
  match destructure data with
  | None =>
      [Emit sid "data-error"
         (PObj {[ "message" := JStr "Failed to process performance data" ]})]
  | Some o =>
      let vehicle_id := prop o "vehicle_id" in
      if negb (truthy vehicle_id) then
        [Emit sid "data-error" (PObj {[ "message" := JStr "Vehicle ID is required" ]})]
      else
        let performanceData := socket_row o now in
        DbInsert performance_table performanceData ::
        match insert performanceData with
        | Failed _ =>
            [Emit sid "data-error"
               (PObj {[ "message" := JStr "Failed to store performance data" ]})]
        | Threw _ =>
            [Emit sid "data-error"
               (PObj {[ "message" := JStr "Failed to process performance data" ]})]
        | Stored _ =>
            [Emit sid "data-stored"
               (PObj {[ "success" := JBool true;
                        "vehicleId" := vehicle_id;
                        "timestamp" := JStr now ]})]
        end
  end.

(** ** Ingest over REST: [router.post('/')] *)

(** [WebSocket.OPEN] of the [ws] package. *)
Definition WebSocket_OPEN : Z := 1.

(** Lines 46-56 of [performanceData.js]; [body] is [req.body] as the
    validation middleware left it. *)
Definition rest_row (body : object) : object :=
  {[ "vehicle_id" := prop body "vehicle_id";
     "rpm" := prop body "rpm";
     "speed" := prop body "speed";
     "batteryVoltage" := prop body "batteryVoltage";
     "fuelTankLevel" := prop body "fuelTankLevel";
     "intakeAirTemp" := prop body "intakeAirTemp";
     "coolantTemp" := prop body "coolantTemp";
     "engineTemp" := prop body "engineTemp";
     "fuelConsumption" := prop body "fuelConsumption" ]}.

(** [{ timestamp: now, ...performanceData }]: the spread comes second, so
    its keys win.  The object stands for its [JSON.stringify] text. *)
Definition broadcast_message (now : string) (performanceData : object) : object :=
  performanceData ∪ {[ "timestamp" := JStr now ]}.

(** The callback of [connections.forEach]; [ws] is an element of the
    registry's set, that is a socket id. *)
Definition send_if_open (message : object) (ws : string) : list effect :=
  if strict_eq (string_prop ws "readyState") (JNum WebSocket_OPEN)
  then [WsSend ws message]
  else [].

(** Lines 74-86 of [performanceData.js]. *)
Definition fan_out (vc : registry) (vehicle_id : jsval) (now : string)
    (performanceData : object) : list effect :=
  match vc !! vehicle_id with
  | Some connections =>
      if bool_decide (0 < size connections) then
        let message := broadcast_message now performanceData in
        elements connections ≫= send_if_open message
      else []
  | None => []
  end.

(** The handler from line 43 on, for a body that was destructured;
    [now_reply] and [now_push] are the two readings of the clock, in
    [createdResponse]/[errorResponse] and in the message. *)
Definition post_performance_data (vc : registry) (now_reply now_push : string)
    (insert : object → outcome) (body : object) : list effect :=
  let vehicle_id := prop body "vehicle_id" in
  let performanceData := rest_row body in
  DbInsert performance_table performanceData ::
  match insert performanceData with
  | Failed _ | Threw _ =>
      [Respond 500 false "Failed to store performance data" now_reply None]
  | Stored data =>
      Respond 201 true "Performance data stored successfully" now_reply (Some data) ::
      fan_out vc vehicle_id now_push performanceData
  end.

(** The whole handler of [router.post('/')], lines 30-92, for any
    [req.body]: the destructuring of lines 31-41 throws on an [undefined]
    body, which the validation middleware lets through, and the [catch] of
    lines 88-91 answers 500 before anything reached the gateway. *)
Definition post_route (vc : registry) (now_reply now_push : string)
    (insert : object → outcome) (body : payload) : list effect :=
  match destructure body with
  | None => [Respond 500 false "Failed to store performance data" now_reply None]
  | Some o => post_performance_data vc now_reply now_push insert o
  end.

(** ** Observations on a trace *)

(** The messages a trace delivers to connection [c], of either kind. *)
Definition delivered_to (c : string) (e : effect) : list payload :=
  match e with
  | Emit sid _ p => if bool_decide (sid = c) then [p] else []
  | WsSend ws m => if bool_decide (ws = c) then [PObj m] else []
  | _ => []
  end.

Definition deliveries (c : string) (tr : list effect) : list payload :=
  tr ≫= delivered_to c.

(** The pushes of a sample to subscribers. *)
Definition broadcasts (tr : list effect) : list (string * object) :=
  tr ≫= λ e, match e with WsSend ws m => [(ws, m)] | _ => [] end.

(** The rows handed to the gateway. *)
Definition inserted_rows (tr : list effect) : list object :=
  tr ≫= λ e, match e with DbInsert _ row => [row] | _ => [] end.

(** ** The registry invariant and reachable registries *)

(** No key maps to an empty set. *)
Definition registry_inv (vc : registry) : Prop :=
  map_Forall (λ _ (connections : gset string), connections ≠ ∅) vc.

#[global] Instance registry_inv_dec vc : Decision (registry_inv vc).
Proof. unfold registry_inv. apply _. Defined.

(** Membership of the pair (vehicle, connection), as a test. *)
Definition subscribed (vc : registry) (vehicleId : jsval) (sid : string) : bool :=
  bool_decide (sid ∈ subscribersOf vc vehicleId).

(** What one entry looks like after the disconnect callback ran on it. *)
Definition dropped (c : string) (s : gset string) : option (gset string) :=
  if decide (c ∈ s) then
    if decide (s ∖ {[c]} = ∅) then None else Some (s ∖ {[c]})
  else Some s.

(** *** Calls for one (vehicle, connection) pair *)

Inductive pair_call : Type := CallSubscribe | CallUnsubscribe.

Definition call_event (v : jsval) (c : string) (k : pair_call) : event :=
  match k with
  | CallSubscribe => SubscribeVehicle c v
  | CallUnsubscribe => UnsubscribeVehicle c v
  end.

Definition run_calls (v : jsval) (c : string) (ks : list pair_call)
    (vc : registry) : registry :=
  run (call_event v c <$> ks) vc.

(** The name of a reading of the sample. *)
Definition readings : list string :=
  ["rpm"; "speed"; "batteryVoltage"; "fuelTankLevel"; "intakeAirTemp";
   "coolantTemp"; "engineTemp"; "fuelConsumption"].

(** The gateway did not store the row. *)
Definition failed (r : outcome) : bool :=
  match r with Stored _ => false | Failed _ | Threw _ => true end.

(** A gateway that stores every row and gives it an identifier. *)
Definition storing_gateway (row : object) : outcome := Stored (<[ "id" := JNum 1 ]> row).

(** A gateway that is down. *)
Definition failing_gateway (row : object) : outcome := Failed "connection refused".

(** ** Inputs used in the examples *)

Definition veh1 : jsval := JStr "veh-1".
Definition veh2 : jsval := JStr "veh-2".

Definition sample_body : object :=
  {[ "vehicle_id" := veh1; "rpm" := JNum 2500; "speed" := JNum 80 ]}.

(** A vehicle id that the schema of [POST /] accepts, and a body with it. *)
Definition veh_uuid : jsval := JStr "3f2b8c1e-5d4a-4b6f-9c0e-7a1d2e3f4a5b".

Definition uuid_body : object :=
  {[ "vehicle_id" := veh_uuid; "rpm" := JNum 2500; "speed" := JNum 80 ]}.

(** Two connections on one vehicle, one on another. *)
Definition sample_registry : registry :=
  run [SubscribeVehicle "c1" veh1; SubscribeVehicle "c2" veh1;
       SubscribeVehicle "c3" veh2] ∅.

(** Closed decidable facts about concrete registries and traces are
    settled by evaluation. *)
Ltac by_compute :=
  match goal with
  | |- ?P => apply (bool_decide_unpack P); vm_compute; exact I
  end.

(** ** Connection events, seen per pair and per key *)

Definition connection_of (ev : event) : string :=
  match ev with
  | SubscribeVehicle c _ | UnsubscribeVehicle c _ | Disconnect c => c
  end.

(** The event changes the membership of connection [c] in vehicle [v]:
    a subscribe or unsubscribe of [c] for [v] that passes the handler's
    guard, or the disconnect of [c]. *)
Definition concerns (v : jsval) (c : string) (ev : event) : bool :=
  match ev with
  | SubscribeVehicle c' v' | UnsubscribeVehicle c' v' =>
      bool_decide (c' = c) && bool_decide (v' = v) && truthy v'
  | Disconnect c' => bool_decide (c' = c)
  end.

Definition joins (ev : event) : bool :=
  match ev with SubscribeVehicle _ _ => true | _ => false end.

Definition last_concerning (v : jsval) (c : string) (evs : list event) : option event :=
  last (filter (λ ev, concerns v c ev) evs).

(** The handler of [ev] touches the entry of key [w]. *)
Definition applies (ev : event) (w : jsval) : bool :=
  match ev with
  | SubscribeVehicle _ v | UnsubscribeVehicle _ v => truthy v && bool_decide (v = w)
  | Disconnect _ => true
  end.

(** What a handler does to the entry of key [w]. *)
Definition act (ev : event) (w : jsval) (o : option (gset string))
    : option (gset string) :=
  match ev with
  | SubscribeVehicle c v =>
      if truthy v && bool_decide (v = w) then Some ({[c]} ∪ default ∅ o) else o
  | UnsubscribeVehicle c v =>
      if truthy v && bool_decide (v = w)
      then s ← o; if decide (s ∖ {[c]} = ∅) then None else Some (s ∖ {[c]})
      else o
  | Disconnect c => o ≫= dropped c
  end.

(** Every key of the registry passed the guard [if (!vehicleId)]. *)
Definition keys_truthy (vc : registry) : Prop :=
  map_Forall (λ v (_ : gset string), truthy v = true) vc.

#[global] Instance keys_truthy_dec vc : Decision (keys_truthy vc).
Proof. unfold keys_truthy. apply _. Defined.

(** ** Columns of the rows and replies in a trace *)

(** The keys of the row of the REST handler and of the socket handler. *)
Definition rest_columns : list string := "vehicle_id" :: readings.

Definition socket_columns : list string := rest_columns ++ ["timestamp"].

(** The HTTP responses of a trace: status and [success] flag. *)
Definition responses (tr : list effect) : list (nat * bool) :=
  tr ≫= λ e, match e with Respond st ok _ _ _ => [(st, ok)] | _ => [] end.

(** The events of a given name emitted to connection [c]. *)
Definition emitted (c ev : string) (tr : list effect) : list payload :=
  tr ≫= λ e, match e with
             | Emit sid ev' p =>
                 if bool_decide (sid = c) && String.eqb ev' ev then [p] else []
             | _ => []
             end.

(** ** The authentication middleware of [middleware/auth.js] *)

(** [s.split(sep)] for a separator of one character. *)
Fixpoint split_on (sep : Ascii.ascii) (s : string) : list string :=
  match s with
  | EmptyString => [EmptyString]
  | String a s' =>
      if Ascii.eqb a sep then EmptyString :: split_on sep s'
      else match split_on sep s' with
           | piece :: rest => String a piece :: rest
           | [] => [String a EmptyString]
           end
  end.

Definition space : Ascii.ascii := Ascii.ascii_of_nat 32.

(** The character occurs in the string. *)
Fixpoint has_char (a : Ascii.ascii) (s : string) : bool :=
  match s with
  | EmptyString => false
  | String b s' => Ascii.eqb b a || has_char a s'
  end.

(** [authHeader && authHeader.split(' ')[1]]; the header is absent or a
    string. *)
Definition bearer_token (authHeader : option string) : jsval :=
  match authHeader with
  | None => JUndefined
  | Some h =>
      if truthy (JStr h)
      then match split_on space h !! 1%nat with
           | Some piece => JStr piece
           | None => JUndefined
           end
      else JStr h
  end.

(** What [supabase.auth.getUser(token)] gives: [{data: {user}, error}], or
    a rejection with an error of the given [name]. *)
Inductive getUser_result : Type :=
  | GotUser (user : option object) (error : option string)
  | GetUserThrew (name : string).

(** The middleware either answers itself or sets [req.user] and calls
    [next]. *)
Inductive auth_reply : Type :=
  | Denied (status : nat) (message : string)
  | Passed (user : object).

(** [authenticateToken]: the tokens looked up and the outcome. *)
Definition authenticateToken (getUser : string → getUser_result)
    (authHeader : option string) : list string * auth_reply :=
  match bearer_token authHeader with
  | JStr token =>
      if negb (truthy (JStr token)) then ([], Denied 401 "Access token is required")
      else
        ([token],
         match getUser token with
         | GotUser (Some user) None => Passed user
         | GotUser _ _ => Denied 401 "Invalid or expired token"
         | GetUserThrew name =>
             if String.eqb name "JsonWebTokenError" then Denied 401 "Invalid token"
             else if String.eqb name "TokenExpiredError" then Denied 401 "Token expired"
             else Denied 500 "Authentication failed"
         end)
  | _ => ([], Denied 401 "Access token is required")
  end.

(** ** The aggregation query of [router.get('/aggregated')] *)

Definition dq : string := String (Ascii.ascii_of_nat 34) EmptyString.

(** The [switch (group_by)] of lines 112-127. *)
Definition date_format (group_by : jsval) : string :=
  if strict_eq group_by (JStr "hour") then "YYYY-MM-DD HH24:00:00"
  else if strict_eq group_by (JStr "day") then "YYYY-MM-DD"
  else if strict_eq group_by (JStr "week") then "YYYY-" ++ dq ++ "W" ++ dq ++ "WW"
  else if strict_eq group_by (JStr "month") then "YYYY-MM"
  else "YYYY-MM-DD".

(** The template literal of the aggregation query (lines 130-146 of
    [performanceData.js]), line breaks included. *)
Definition select_clause (dateFormat : string) : string :=
  "
      SELECT 
        to_char(timestamp, '" ++ dateFormat ++
  "') as period,
        AVG(rpm)::INTEGER as avg_rpm,
        AVG(speed_kmh)::NUMERIC(5,2) as avg_speed,
        AVG(coolant_temperature_celsius)::NUMERIC(5,2) as avg_temperature,
        MAX(rpm) as max_rpm,
        MAX(speed_kmh) as max_speed,
        MAX(coolant_temperature_celsius) as max_temperature,
        MIN(rpm) as min_rpm,
        MIN(speed_kmh) as min_speed,
        MIN(coolant_temperature_celsius) as min_temperature,
        " ++ "COUNT(" ++ "*" ++ ")" ++
  " as data_points
      FROM vehicle_performance_data
      WHERE 1=1
    ".

(** The three variables the builder updates. *)
Record qstate : Type := QState {
  query : string;
  queryParams : list jsval;
  paramIndex : nat
}.

(** One [if (value) { query += ...; queryParams.push(value); paramIndex++ }]
    block; [clause] is the text before the placeholder number. *)
Definition filter_step (clause : string) (value : jsval) (q : qstate) : qstate :=
  if truthy value then
    {| query := query q ++ clause ++ pretty (paramIndex q);
       queryParams := queryParams q ++ [value];
       paramIndex := S (paramIndex q) |}
  else q.

(** Lines 110-168 of [performanceData.js]. *)
Definition aggregate_query (vehicle_id from_date to_date group_by : jsval) : qstate :=
  let q0 := {| query := select_clause (date_format group_by);
               queryParams := [];
               paramIndex := 1 |} in
  let q1 := filter_step " AND vehicle_id = $" vehicle_id q0 in
  let q2 := filter_step " AND timestamp >= $" from_date q1 in
  let q3 := filter_step " AND timestamp <= $" to_date q2 in
  {| query := query q3 ++ " GROUP BY period ORDER BY period";
     queryParams := queryParams q3;
     paramIndex := paramIndex q3 |}.

(** The conditions of the query in the order the builder considers them:
    text before the placeholder number, and value. *)
Definition conditions (vehicle_id from_date to_date : jsval) : list (string * jsval) :=
  [(" AND vehicle_id = $", vehicle_id);
   (" AND timestamp >= $", from_date);
   (" AND timestamp <= $", to_date)].

(** The text the conditions [cs] add when the first of them gets the
    placeholder number [n]. *)
Fixpoint numbered (n : nat) (cs : list (string * jsval)) : string :=
  match cs with
  | [] => EmptyString
  | (clause, _) :: cs' => clause ++ pretty n ++ numbered (S n) cs'
  end.

(** ** The date window of [router.get('/:id')] *)

Definition letter_T : Ascii.ascii := Ascii.ascii_of_nat 84.

(** [iso.split('T')[0]] for a reading [iso] of [new Date().toISOString()]. *)
Definition date_part (iso : string) : string :=
  default EmptyString (split_on letter_T iso !! 0%nat).

Definition day_start (d : string) : string := d ++ "T00:00:00.000Z".
Definition day_end (d : string) : string := d ++ "T23:59:59.999Z".

(** What the filter selection of lines 213-282 comes to: the bounds put
    on [timestamp], the early 400 of an incomplete range, or an exception
    of the [Date] arithmetic. *)
Inductive window_result : Type :=
  | Window (gte lte : string)
  | RangeIncomplete
  | WindowThrew.

(** Lines 213-282.  [week_window] stands for the local-time [Date]
    arithmetic of the 'weekend' branch, [None] when it throws on an
    invalid date, and [now] for the clock reading. *)
Definition date_window (week_window : jsval → option (string * string)) (now : string)
    (filterType date fromDate toDate : jsval) : window_result :=
  if strict_eq filterType (JStr "day") then
    let targetDate := js_or date (JStr (date_part now)) in
    Window (day_start (to_string targetDate)) (day_end (to_string targetDate))
  else if strict_eq filterType (JStr "weekend") then
    match week_window date with
    | Some (startDate, endDate) => Window startDate endDate
    | None => WindowThrew
    end
  else if strict_eq filterType (JStr "range") || strict_eq filterType (JStr "week") then
    if negb (truthy fromDate) || negb (truthy toDate) then RangeIncomplete
    else Window (day_start (to_string fromDate)) (day_end (to_string toDate))
  else
    Window (day_start (date_part now)) (day_end (date_part now)).

(** Outcome of the awaited query: [{data, error}] or a rejection. *)
Inductive select_result : Type :=
  | Rows (data : option (list object))
  | SelectFailed (message : string)
  | SelectThrew.

(** The [metadata] object of lines 298-305. *)
Record metadata : Type := Metadata {
  meta_filterType : jsval;
  meta_totalRecords : nat;
  meta_from : jsval;
  meta_to : jsval
}.

Inductive get_effect : Type :=
  | Select (vehicle_id : string) (gte lte : string)
  | Reply (status : nat) (success : bool) (message timestamp : string)
          (data : option (list object)) (meta : option metadata).

(** The handler of [GET /:id].  [removeNulls] is the helper of
    [utils/utils]; [t_window], [t_from], [t_to] and [t_reply] are the clock
    readings for the window, the two ends of [dateRange] and the reply. *)
Definition get_performance_data (week_window : jsval → option (string * string))
    (removeNulls : object → object) (select : string → string → string → select_result)
    (t_window t_from t_to t_reply : string)
    (id : string) (filterType date fromDate toDate : jsval) : list get_effect :=
  match date_window week_window t_window filterType date fromDate toDate with
  | RangeIncomplete =>
      [Reply 400 false "fromDate and toDate are required for range filtering"
         t_reply None None]
  | WindowThrew =>
      [Reply 500 false "Failed to retrieve performance data" t_reply None None]
  | Window gte lte =>
      Select id gte lte ::
      match select id gte lte with
      | SelectFailed _ | SelectThrew =>
          [Reply 500 false "Failed to retrieve performance data" t_reply None None]
      | Rows None =>
          [Reply 404 false "Performance data not found" t_reply None None]
      | Rows (Some performanceData) =>
          let filteredData := removeNulls <$> performanceData in
          let metadata :=
            {| meta_filterType := js_or filterType (JStr "day");
               meta_totalRecords := length filteredData;
               meta_from := js_or fromDate (js_or date (JStr (date_part t_from)));
               meta_to := js_or toDate (js_or date (JStr (date_part t_to))) |} in
          [Reply 200 true "Performance data retrieved successfully" t_reply
             (Some filteredData) (Some metadata)]
      end
  end.

(** Case analysis on the set tests of the registry operations. *)
Ltac split_sets :=
  unfold dropped; simpl;
  repeat (case_decide; simpl);
  try done; try (f_equal; set_solver); try (exfalso; set_solver).

(** ** Lookup equations of the registry operations *)

Section registry_facts.
Implicit Types (vc : registry) (v w : jsval) (c d : string).

Lemma size_zero_empty (s : gset string) : size s = 0 ↔ s = ∅.
Proof. rewrite size_empty_iff. by unfold_leibniz. Qed.

Lemma subscribe_eq v c vc :
  subscribe v c vc = <[v := {[c]} ∪ subscribersOf vc v]> vc.
Proof.
  unfold subscribe, subscribersOf.
  case_bool_decide as Hv.
  - destruct Hv as [s Hv]. by rewrite Hv.
  - apply eq_None_not_Some in Hv. rewrite Hv, lookup_insert_eq. simpl.
    by rewrite insert_insert_eq.
Qed.

Lemma subscribersOf_subscribe v c vc w :
  subscribersOf (subscribe v c vc) w =
  if decide (v = w) then {[c]} ∪ subscribersOf vc v else subscribersOf vc w.
Proof.
  rewrite subscribe_eq. unfold subscribersOf at 1.
  rewrite lookup_insert. destruct (decide (v = w)); done.
Qed.

Lemma unsubscribe_lookup v c vc w :
  unsubscribe v c vc !! w =
  if decide (v = w) then
    s ← vc !! v; if decide (s ∖ {[c]} = ∅) then None else Some (s ∖ {[c]})
  else vc !! w.
Proof.
  unfold unsubscribe. destruct (vc !! v) as [s|] eqn:Hv; simpl.
  - case_bool_decide as Hsz; rewrite size_zero_empty in Hsz.
    + rewrite lookup_delete. destruct (decide (v = w)); [|done].
      by rewrite decide_True.
    + rewrite lookup_insert. destruct (decide (v = w)); [|done].
      by rewrite decide_False.
  - destruct (decide (v = w)) as [->|]; done.
Qed.

Lemma subscribersOf_unsubscribe v c vc w :
  subscribersOf (unsubscribe v c vc) w =
  if decide (v = w) then subscribersOf vc v ∖ {[c]} else subscribersOf vc w.
Proof.
  unfold subscribersOf at 1. rewrite unsubscribe_lookup.
  destruct (decide (v = w)) as [->|]; [|done].
  unfold subscribersOf. destruct (vc !! w) as [s|]; simpl.
  - case_decide as He; simpl; [by rewrite He|done].
  - set_solver.
Qed.

Lemma dropConnection_fold c (acc m : registry) w :
  map_fold (drop_step c) acc m !! w =
  match m !! w with
  | Some s => if decide (c ∈ s) then dropped c s else acc !! w
  | None => acc !! w
  end.
Proof.
  revert w.
  apply (map_fold_weak_ind (λ (r : registry) (m : registry), ∀ w,
    r !! w = match m !! w with
             | Some s => if decide (c ∈ s) then dropped c s else acc !! w
             | None => acc !! w
             end)).
  - intros w. by rewrite lookup_empty.
  - intros v s m' r Hfresh IH w.
    rewrite lookup_insert. unfold drop_step.
    destruct (decide (v = w)) as [<-|Hne].
    + case_bool_decide as Hin.
      * rewrite decide_True by done. unfold dropped. rewrite decide_True by done.
        case_bool_decide as Hsz; rewrite size_zero_empty in Hsz.
        -- rewrite decide_True by done. apply lookup_delete_eq.
        -- rewrite decide_False by done. apply lookup_insert_eq.
      * rewrite decide_False by done. rewrite IH, Hfresh. done.
    + case_bool_decide as Hin; [|apply IH].
      case_bool_decide as Hsz.
      * rewrite lookup_delete_ne by done. apply IH.
      * rewrite lookup_insert_ne by done. apply IH.
Qed.

Lemma dropConnection_lookup c vc w :
  dropConnection c vc !! w = vc !! w ≫= dropped c.
Proof.
  unfold dropConnection. rewrite dropConnection_fold.
  destruct (vc !! w) as [s|] eqn:Hw; simpl; [|done].
  unfold dropped. destruct (decide (c ∈ s)); done.
Qed.

Lemma subscribersOf_dropConnection c vc w :
  subscribersOf (dropConnection c vc) w = subscribersOf vc w ∖ {[c]}.
Proof.
  unfold subscribersOf. rewrite dropConnection_lookup.
  destruct (vc !! w) as [s|]; simpl; [|set_solver].
  unfold dropped. repeat case_decide; simpl; set_solver.
Qed.

(** *** Preservation of the invariant *)

Lemma registry_inv_lookup vc :
  registry_inv vc ↔ ∀ v s, vc !! v = Some s → s ≠ ∅.
Proof. unfold registry_inv. by rewrite map_Forall_lookup. Qed.

Lemma subscribe_inv v c vc : registry_inv vc → registry_inv (subscribe v c vc).
Proof.
  rewrite !registry_inv_lookup. intros Hinv w s.
  rewrite subscribe_eq, lookup_insert.
  destruct (decide (v = w)); [|apply Hinv].
  intros [= <-]. set_solver.
Qed.

Lemma unsubscribe_inv v c vc : registry_inv vc → registry_inv (unsubscribe v c vc).
Proof.
  rewrite !registry_inv_lookup. intros Hinv w s.
  rewrite unsubscribe_lookup.
  destruct (decide (v = w)) as [<-|]; [|apply Hinv].
  destruct (vc !! v) as [s0|]; simpl; [|done].
  case_decide; [done|]. by intros [= <-].
Qed.

Lemma dropConnection_inv c vc : registry_inv vc → registry_inv (dropConnection c vc).
Proof.
  rewrite !registry_inv_lookup. intros Hinv w s.
  rewrite dropConnection_lookup.
  destruct (vc !! w) as [s0|] eqn:Hw; simpl; [|done].
  unfold dropped. repeat case_decide; try done.
  - by intros [= <-].
  - intros [= <-]. by eapply Hinv.
Qed.

Lemma handle_inv ev vc : registry_inv vc → registry_inv (handle ev vc).1.
Proof.
  intros Hinv. destruct ev as [c v|c v|c]; simpl.
  - unfold on_subscribe_vehicle. destruct (truthy v); simpl; [|done].
    by apply subscribe_inv.
  - unfold on_unsubscribe_vehicle. destruct (truthy v); simpl; [|done].
    by apply unsubscribe_inv.
  - by apply dropConnection_inv.
Qed.

Lemma run_inv evs vc : registry_inv vc → registry_inv (run evs vc).
Proof.
  revert vc. induction evs as [|ev evs IH]; intros vc Hinv; simpl; [done|].
  apply IH. by apply handle_inv.
Qed.

Lemma run_app evs1 evs2 vc : run (evs1 ++ evs2) vc = run evs2 (run evs1 vc).
Proof. revert vc. induction evs1 as [|ev evs1 IH]; intros vc; simpl; [done|apply IH]. Qed.

End registry_facts.

(** ** Properties of the connection registry *)

(** C4. Starting from the empty registry, after any sequence of
    subscribe-vehicle, unsubscribe-vehicle and disconnect events the
    invariant holds: no key of [vehicleConnections] maps to an empty set,
    so a tracked vehicle always has a subscriber. *)
Theorem registry_invariant_reachable (evs : list event) :
  registry_inv (run evs ∅) ∧
  (∀ v, run evs ∅ !! v ≠ Some ∅) ∧
  (∀ v, v ∈ trackedVehicles (run evs ∅) → ∃ c, c ∈ subscribersOf (run evs ∅) v).
Proof.
  assert (Hinv : registry_inv (run evs ∅)).
  { apply run_inv. unfold registry_inv. apply map_Forall_empty. }
  split; [done|]. rewrite registry_inv_lookup in Hinv. split.
  - intros v Hv. by apply (Hinv v ∅).
  - intros v Hv. unfold trackedVehicles in Hv. apply elem_of_dom in Hv as [s Hs].
    unfold subscribersOf. rewrite Hs. simpl.
    apply set_choose_L. by eapply Hinv.
Qed.

Lemma registry_invariant_reachable_witness :
  veh1 ∈ trackedVehicles (run [SubscribeVehicle "c1" veh1; Disconnect "c9"] ∅) ∧
  ∃ c, c ∈ subscribersOf (run [SubscribeVehicle "c1" veh1; Disconnect "c9"] ∅) veh1.
Proof.
  assert (Hin : veh1 ∈ trackedVehicles
                  (run [SubscribeVehicle "c1" veh1; Disconnect "c9"] ∅)).
  { by_compute. }
  split; [exact Hin|].
  exact (proj2 (proj2 (registry_invariant_reachable
           [SubscribeVehicle "c1" veh1; Disconnect "c9"])) veh1 Hin).
Defined.

(** C5. After the disconnect handler ran for connection [c], no vehicle has
    [c] among its subscribers, and a vehicle whose set thereby became empty
    is no longer a key of the registry. *)
Theorem dropConnection_removes_everywhere (c : string) (vc : registry) :
  let vc' := (on_disconnect c vc).1 in
  (∀ v, c ∉ subscribersOf vc' v) ∧
  (∀ v, c ∈ subscribersOf vc v → subscribersOf vc' v = ∅ → v ∉ trackedVehicles vc').
Proof.
  simpl. split.
  - intros v. rewrite subscribersOf_dropConnection. set_solver.
  - intros v Hin Hemp. unfold trackedVehicles. rewrite not_elem_of_dom.
    rewrite subscribersOf_dropConnection in Hemp.
    rewrite dropConnection_lookup. unfold subscribersOf in Hin, Hemp.
    destruct (vc !! v) as [s|]; simpl in *; [|done].
    unfold dropped. by rewrite !decide_True.
Qed.

Lemma dropConnection_removes_everywhere_witness :
  "c3" ∈ subscribersOf sample_registry veh2 ∧
  subscribersOf (on_disconnect "c3" sample_registry).1 veh2 = ∅ ∧
  veh2 ∉ trackedVehicles (on_disconnect "c3" sample_registry).1.
Proof.
  assert (Hin : "c3" ∈ subscribersOf sample_registry veh2).
  { by_compute. }
  assert (Hemp : subscribersOf (on_disconnect "c3" sample_registry).1 veh2 = ∅).
  { by_compute. }
  split; [exact Hin|]. split; [exact Hemp|].
  exact (proj2 (dropConnection_removes_everywhere "c3" sample_registry) veh2 Hin Hemp).
Defined.

Section pair_calls.
Implicit Types (vc : registry) (v : jsval) (c : string).

Lemma subscribed_after_call v c k vc :
  truthy v = true →
  subscribed (run_calls v c [k] vc) v c =
  match k with CallSubscribe => true | CallUnsubscribe => false end.
Proof.
  intros Hv. unfold run_calls, subscribed. destruct k; simpl.
  - unfold on_subscribe_vehicle. rewrite Hv. simpl.
    rewrite subscribersOf_subscribe, decide_True by done.
    apply bool_decide_eq_true_2. set_solver.
  - unfold on_unsubscribe_vehicle. rewrite Hv. simpl.
    rewrite subscribersOf_unsubscribe, decide_True by done.
    apply bool_decide_eq_false_2. set_solver.
Qed.

Lemma run_calls_falsy v c ks vc : truthy v = false → run_calls v c ks vc = vc.
Proof.
  intros Hv. unfold run_calls. induction ks as [|k ks IH]; simpl; [done|].
  destruct k; simpl.
  - unfold on_subscribe_vehicle. by rewrite Hv.
  - unfold on_unsubscribe_vehicle. by rewrite Hv.
Qed.

Lemma run_calls_snoc v c ks k vc :
  run_calls v c (ks ++ [k]) vc = run_calls v c [k] (run_calls v c ks vc).
Proof. unfold run_calls. by rewrite fmap_app, run_app. Qed.

Lemma subscribe_twice v c vc : subscribe v c (subscribe v c vc) = subscribe v c vc.
Proof.
  rewrite (subscribe_eq v c (subscribe v c vc)), subscribersOf_subscribe.
  rewrite decide_True by done. rewrite subscribe_eq, insert_insert_eq.
  f_equal. set_solver.
Qed.

Lemma unsubscribe_absent v c vc :
  registry_inv vc → c ∉ subscribersOf vc v → unsubscribe v c vc = vc.
Proof.
  rewrite registry_inv_lookup. intros Hinv Hc. unfold unsubscribe.
  unfold subscribersOf in Hc. destruct (vc !! v) as [s|] eqn:Hv; simpl in *; [|done].
  assert (s ∖ {[c]} = s) as -> by set_solver.
  rewrite bool_decide_eq_false_2.
  - by apply insert_id.
  - rewrite size_zero_empty. by eapply Hinv.
Qed.
End pair_calls.

(** C6. For a fixed pair (vehicle, connection) and any registry, after a
    non-empty sequence of subscribe and unsubscribe calls the membership of
    the pair is the effect of the last call: the pair is a member after a
    subscribe and not a member after an unsubscribe, whatever came before,
    which is also what the last call alone gives.  Subscribing twice is
    subscribing once; unsubscribing a pair that is not subscribed leaves
    its membership as it was.  Calls with a vehicle id that fails the
    guard of the handlers never reach the registry. *)
Theorem last_call_decides_membership (vc : registry) (v : jsval) (c : string)
    (ks : list pair_call) (k : pair_call) :
  (truthy v = true →
   subscribed (run_calls v c (ks ++ [k]) vc) v c =
     match k with CallSubscribe => true | CallUnsubscribe => false end ∧
   (c ∈ subscribersOf (run_calls v c (ks ++ [k]) vc) v ↔ k = CallSubscribe)) ∧
  (truthy v = false → run_calls v c (ks ++ [k]) vc = vc) ∧
  subscribed (run_calls v c (ks ++ [k]) vc) v c = subscribed (run_calls v c [k] vc) v c ∧
  run_calls v c [CallSubscribe; CallSubscribe] vc = run_calls v c [CallSubscribe] vc ∧
  (subscribed vc v c = false →
   subscribed (run_calls v c [CallUnsubscribe] vc) v c = subscribed vc v c).
Proof.
  destruct (truthy v) eqn:Hv.
  - split; [|split; [done|split; [|split]]].
    + intros _.
      assert (Hlast : subscribed (run_calls v c (ks ++ [k]) vc) v c =
                match k with CallSubscribe => true | CallUnsubscribe => false end).
      { rewrite run_calls_snoc. by rewrite subscribed_after_call. }
      split; [exact Hlast|].
      unfold subscribed in Hlast. destruct k.
      * apply bool_decide_eq_true_1 in Hlast. by split.
      * apply bool_decide_eq_false_1 in Hlast. by split.
    + rewrite run_calls_snoc. by rewrite !subscribed_after_call.
    + unfold run_calls. simpl. unfold on_subscribe_vehicle. rewrite Hv. simpl.
      apply subscribe_twice.
    + intros Hno. rewrite Hno. by rewrite subscribed_after_call.
  - rewrite !run_calls_falsy by done. done.
Qed.

Lemma last_call_decides_membership_witness :
  (truthy veh1 = true ∧
   subscribed (run_calls veh1 "c7" ([CallUnsubscribe; CallUnsubscribe] ++ [CallSubscribe])
                 sample_registry) veh1 "c7" = true ∧
   subscribed (run_calls veh1 "c1" ([CallSubscribe] ++ [CallUnsubscribe])
                 sample_registry) veh1 "c1" = false) ∧
  (truthy JNull = false ∧
   run_calls JNull "c7" ([] ++ [CallSubscribe]) sample_registry = sample_registry) ∧
  (subscribed sample_registry veh1 "c7" = false ∧
   subscribed (run_calls veh1 "c7" [CallUnsubscribe] sample_registry) veh1 "c7" =
   subscribed sample_registry veh1 "c7").
Proof.
  assert (Hv : truthy veh1 = true) by reflexivity.
  assert (Hn : truthy JNull = false) by reflexivity.
  assert (Hno : subscribed sample_registry veh1 "c7" = false) by (vm_compute; reflexivity).
  split; [|split].
  - split; [exact Hv|]. split.
    + exact (proj1 (proj1 (last_call_decides_membership sample_registry veh1 "c7"
                             [CallUnsubscribe; CallUnsubscribe] CallSubscribe) Hv)).
    + exact (proj1 (proj1 (last_call_decides_membership sample_registry veh1 "c1"
                             [CallSubscribe] CallUnsubscribe) Hv)).
  - split; [exact Hn|].
    exact (proj1 (proj2 (last_call_decides_membership sample_registry JNull "c7"
                           [] CallSubscribe)) Hn).
  - split; [exact Hno|].
    exact (proj2 (proj2 (proj2 (proj2
             (last_call_decides_membership sample_registry veh1 "c7"
                [] CallUnsubscribe)))) Hno).
Defined.

(** C7. unsubscribe takes the connection out of the vehicle's set and
    leaves every other vehicle alone; when the set becomes empty the key
    goes; when the pair is not subscribed the registry is unchanged; and
    the handler answers with 'unsubscribed', never with an error. *)
Theorem unsubscribe_removes_pair (v : jsval) (c : string) (vc : registry) :
  let vc' := unsubscribe v c vc in
  subscribersOf vc' v = subscribersOf vc v ∖ {[c]} ∧
  (∀ w, w ≠ v → vc' !! w = vc !! w) ∧
  (subscribersOf vc v ∖ {[c]} = ∅ → v ∉ trackedVehicles vc') ∧
  (registry_inv vc → c ∉ subscribersOf vc v → vc' = vc) ∧
  (truthy v = true →
   on_unsubscribe_vehicle c v vc =
   (vc', [Leave c (room_of v); Emit c "unsubscribed" (PObj {[ "vehicleId" := v ]})])).
Proof.
  simpl. split; [|split; [|split; [|split]]].
  - rewrite subscribersOf_unsubscribe. by rewrite decide_True.
  - intros w Hw. rewrite unsubscribe_lookup. by rewrite decide_False.
  - intros Hemp. unfold trackedVehicles. rewrite not_elem_of_dom.
    rewrite unsubscribe_lookup, decide_True by done.
    unfold subscribersOf in Hemp. destruct (vc !! v) as [s|]; simpl in *; [|done].
    by rewrite decide_True.
  - apply unsubscribe_absent.
  - intros Hv. unfold on_unsubscribe_vehicle. by rewrite Hv.
Qed.

Lemma unsubscribe_removes_pair_witness :
  ((subscribersOf sample_registry veh2) ∖ {["c3"]} = ∅ ∧
   veh2 ∉ trackedVehicles (unsubscribe veh2 "c3" sample_registry)) ∧
  (registry_inv sample_registry ∧ ("c9" ∉ subscribersOf sample_registry veh1) ∧
   unsubscribe veh1 "c9" sample_registry = sample_registry) ∧
  (truthy veh1 = true ∧
   on_unsubscribe_vehicle "c1" veh1 sample_registry =
   (unsubscribe veh1 "c1" sample_registry,
    [Leave "c1" (room_of veh1);
     Emit "c1" "unsubscribed" (PObj {[ "vehicleId" := veh1 ]})])).
Proof.
  assert (Hemp : subscribersOf sample_registry veh2 ∖ {["c3"]} = ∅) by by_compute.
  assert (Hinv : registry_inv sample_registry) by by_compute.
  assert (Hno : "c9" ∉ subscribersOf sample_registry veh1) by by_compute.
  assert (Hv : truthy veh1 = true) by reflexivity.
  split; [|split].
  - split; [exact Hemp|].
    exact (proj1 (proj2 (proj2 (unsubscribe_removes_pair veh2 "c3" sample_registry))) Hemp).
  - split; [exact Hinv|]. split; [exact Hno|].
    exact (proj1 (proj2 (proj2 (proj2
             (unsubscribe_removes_pair veh1 "c9" sample_registry)))) Hinv Hno).
  - split; [exact Hv|].
    exact (proj2 (proj2 (proj2 (proj2
             (unsubscribe_removes_pair veh1 "c1" sample_registry)))) Hv).
Defined.

(** C10. 'unsubscribe-vehicle' with a missing or empty vehicle id does
    nothing: the registry is unchanged and nothing is emitted; the same id
    given to 'subscribe-vehicle' is answered with an 'error' event. *)
Theorem unsubscribe_without_id_is_silent (c : string) (v : jsval) (vc : registry) :
  truthy v = false →
  on_unsubscribe_vehicle c v vc = (vc, []) ∧
  on_subscribe_vehicle c v vc =
    (vc, [Emit c "error" (PVal (JStr "Vehicle ID is required"))]).
Proof.
  intros Hv. unfold on_unsubscribe_vehicle, on_subscribe_vehicle. by rewrite Hv.
Qed.

Lemma unsubscribe_without_id_is_silent_witness :
  truthy (JStr EmptyString) = false ∧
  on_unsubscribe_vehicle "c1" (JStr EmptyString) sample_registry = (sample_registry, []) ∧
  on_subscribe_vehicle "c1" (JStr EmptyString) sample_registry =
    (sample_registry, [Emit "c1" "error" (PVal (JStr "Vehicle ID is required"))]).
Proof.
  split; [reflexivity|].
  apply (unsubscribe_without_id_is_silent "c1" (JStr EmptyString) sample_registry).
  reflexivity.
Defined.

(** ** Facts about the two ingest handlers *)

Section ingest_facts.
Implicit Types (vc : registry) (o body : object) (insert : object → outcome).

(** A socket id has no [readyState]: the test of the callback fails for
    every element of the set. *)
Lemma send_if_open_nil (message : object) (ws : string) : send_if_open message ws = [].
Proof. reflexivity. Qed.

Lemma fan_out_nil vc (v : jsval) (now : string) (row : object) : fan_out vc v now row = [].
Proof.
  unfold fan_out. destruct (vc !! v) as [s|]; [|done].
  case_bool_decide; [|done].
  induction (elements s) as [|ws l IH]; [done|].
  by rewrite bind_cons, send_if_open_nil, IH.
Qed.

Lemma post_performance_data_trace vc (t1 t2 : string) insert body :
  post_performance_data vc t1 t2 insert body =
  DbInsert performance_table (rest_row body) ::
  match insert (rest_row body) with
  | Stored data =>
      [Respond 201 true "Performance data stored successfully" t1 (Some data)]
  | _ => [Respond 500 false "Failed to store performance data" t1 None]
  end.
Proof.
  unfold post_performance_data.
  destruct (insert (rest_row body)); by rewrite ?fan_out_nil.
Qed.

Lemma on_performance_data_trace (sid now : string) insert (data : payload) o :
  destructure data = Some o →
  truthy (prop o "vehicle_id") = true →
  ∃ ev p,
    on_performance_data sid now insert data =
    [DbInsert performance_table (socket_row o now); Emit sid ev p] ∧
    (ev = "data-stored" ∨ ev = "data-error") ∧
    (ev = "data-stored" ↔ ∃ d, insert (socket_row o now) = Stored d).
Proof.
  intros Hd Hv. unfold on_performance_data. rewrite Hd, Hv. simpl.
  destruct (insert (socket_row o now)) as [d|e|m]; do 2 eexists;
    (split; [reflexivity|]); (split; [by eauto|]).
  - split; eauto.
  - split; [done|]. by intros [? ?].
  - split; [done|]. by intros [? ?].
Qed.

Lemma rest_row_reading body (k : string) :
  k ∈ readings → prop (rest_row body) k = prop body k.
Proof.
  unfold readings. rewrite !elem_of_cons, elem_of_nil.
  intros H. repeat (destruct H as [->|H]; [reflexivity|]). done.
Qed.

Lemma socket_row_reading o (now : string) (k : string) :
  k ∈ readings → prop (socket_row o now) k = js_or (prop o k) JNull.
Proof.
  unfold readings. rewrite !elem_of_cons, elem_of_nil.
  intros H. repeat (destruct H as [->|H]; [reflexivity|]). done.
Qed.

Lemma socket_row_timestamp o (now : string) :
  prop (socket_row o now) "timestamp" = JStr now.
Proof. reflexivity. Qed.

(** The REST row has no timestamp of its own and does not depend on one
    in the body. *)
Lemma rest_row_no_timestamp body (t : jsval) :
  rest_row body !! "timestamp" = None ∧
  rest_row (<[ "timestamp" := t ]> body) = rest_row body.
Proof.
  split; [reflexivity|]. unfold rest_row, prop. by rewrite !lookup_insert_ne.
Qed.

End ingest_facts.

(** ** Properties of the ingest handlers *)

(** C2. When the gateway does not store the row, the REST handler answers
    500 with [success: false] and the socket handler emits 'data-error' to
    the sender; neither pushes anything to any connection, whoever is
    subscribed. *)
Theorem persistence_failure_no_broadcast (vc : registry) (sid t1 t2 now : string)
    (insert : object → outcome) (body : object) (data : payload) (o : object) :
  (failed (insert (rest_row body)) = true →
   post_performance_data vc t1 t2 insert body =
     [DbInsert performance_table (rest_row body);
      Respond 500 false "Failed to store performance data" t1 None] ∧
   broadcasts (post_performance_data vc t1 t2 insert body) = [] ∧
   ∀ c, deliveries c (post_performance_data vc t1 t2 insert body) = []) ∧
  (destructure data = Some o →
   truthy (prop o "vehicle_id") = true →
   failed (insert (socket_row o now)) = true →
   (∃ msg, on_performance_data sid now insert data =
      [DbInsert performance_table (socket_row o now);
       Emit sid "data-error" (PObj {[ "message" := JStr msg ]})]) ∧
   broadcasts (on_performance_data sid now insert data) = [] ∧
   ∀ c, c ≠ sid → deliveries c (on_performance_data sid now insert data) = []).
Proof.
  split.
  - intros Hrest. unfold post_performance_data.
    destruct (insert (rest_row body)); [done| |]; by repeat split.
  - intros Hd Hv Hsock. unfold on_performance_data. rewrite Hd, Hv. simpl.
    destruct (insert (socket_row o now)); [done| |];
      (split; [by eexists|]); (split; [done|]);
      intros c Hc; unfold deliveries; simpl; by rewrite bool_decide_eq_false_2.
Qed.

Lemma persistence_failure_no_broadcast_witness :
  (failed (failing_gateway (rest_row sample_body)) = true ∧
   post_performance_data sample_registry "t1" "t2" failing_gateway sample_body =
     [DbInsert performance_table (rest_row sample_body);
      Respond 500 false "Failed to store performance data" "t1" None] ∧
   deliveries "c1" (post_performance_data sample_registry "t1" "t2"
                      failing_gateway sample_body) = []) ∧
  (destructure (PObj sample_body) = Some sample_body ∧
   truthy (prop sample_body "vehicle_id") = true ∧
   failed (failing_gateway (socket_row sample_body "t0")) = true ∧
   deliveries "c1" (on_performance_data "c9" "t0" failing_gateway (PObj sample_body)) = []).
Proof.
  pose proof (persistence_failure_no_broadcast sample_registry "c9" "t1" "t2" "t0"
                failing_gateway sample_body (PObj sample_body) sample_body)
    as [Hrest Hsock].
  split.
  - split; [reflexivity|].
    destruct (Hrest eq_refl) as [Htr [_ Hnone]].
    split; [exact Htr|exact (Hnone "c1")].
  - split; [reflexivity|]. split; [reflexivity|]. split; [reflexivity|].
    destruct (Hsock eq_refl eq_refl eq_refl) as [_ [_ Hnone]].
    apply Hnone. by_compute.
Defined.

(** C8, at the input where the socket handler departs from it: a reading
    of 0 is present in the sample, and the row handed to the gateway has
    [null] in its place, while the REST handler hands on the 0. *)
Theorem socket_ingest_drops_zero_reading :
  let data : object := {[ "vehicle_id" := veh1; "rpm" := JNum 2500; "speed" := JNum 0 ]} in
  prop data "speed" = JNum 0 ∧
  (∃ row, inserted_rows (on_performance_data "c1" "t0" storing_gateway (PObj data)) = [row] ∧
          prop row "rpm" = JNum 2500 ∧ prop row "speed" = JNull) ∧
  (∃ row, inserted_rows (post_performance_data ∅ "t1" "t2" storing_gateway data) = [row] ∧
          prop row "rpm" = JNum 2500 ∧ prop row "speed" = JNum 0).
Proof.
  simpl. split; [by vm_compute|]. split.
  - eexists. split; [reflexivity|]. split; by vm_compute.
  - eexists. split; [reflexivity|]. split; by vm_compute.
Qed.

(** C9 as stated fails: a sample that carries a timestamp is stored by the
    socket handler under the clock reading, not under its own timestamp. *)
Lemma incoming_timestamp_not_kept :
  let data : object :=
    {[ "vehicle_id" := veh1; "timestamp" := JStr "2020-01-01T00:00:00.000Z" ]} in
  ¬ (∀ row, row ∈ inserted_rows (on_performance_data "c1" "2026-11-01T12:00:00.000Z"
                                    storing_gateway (PObj data)) →
            prop row "timestamp" = prop data "timestamp").
Proof.
  simpl. intros H.
  specialize (H (socket_row {[ "vehicle_id" := veh1;
                               "timestamp" := JStr "2020-01-01T00:00:00.000Z" ]}
                            "2026-11-01T12:00:00.000Z")).
  assert (Hin : JStr "2026-11-01T12:00:00.000Z" = JStr "2020-01-01T00:00:00.000Z").
  { apply H. vm_compute. apply list_elem_of_here. }
  discriminate Hin.
Qed.

(** C9, amended. Over the socket the row handed to the gateway always has
    the clock reading at ingest as its timestamp, whether or not the sample
    carries one: the row is the same with and without an incoming
    timestamp. *)
Theorem timestamp_always_server_assigned (sid now : string) (insert : object → outcome)
    (data : payload) (o : object) (t : jsval) :
  destructure data = Some o →
  truthy (prop o "vehicle_id") = true →
  inserted_rows (on_performance_data sid now insert data) = [socket_row o now] ∧
  prop (socket_row o now) "timestamp" = JStr now ∧
  socket_row (<[ "timestamp" := t ]> o) now = socket_row o now.
Proof.
  intros Hd Hv. split; [|split].
  - unfold on_performance_data. rewrite Hd, Hv. simpl.
    by destruct (insert (socket_row o now)).
  - apply socket_row_timestamp.
  - unfold socket_row, prop. by rewrite !lookup_insert_ne.
Qed.

Lemma timestamp_always_server_assigned_witness :
  destructure (PObj sample_body) = Some sample_body ∧
  truthy (prop sample_body "vehicle_id") = true ∧
  inserted_rows (on_performance_data "c1" "2026-11-01T12:00:00.000Z" storing_gateway
                   (PObj sample_body)) =
    [socket_row sample_body "2026-11-01T12:00:00.000Z"] ∧
  prop (socket_row sample_body "2026-11-01T12:00:00.000Z") "timestamp" =
    JStr "2026-11-01T12:00:00.000Z".
Proof.
  split; [reflexivity|]. split; [reflexivity|].
  pose proof (timestamp_always_server_assigned "c1" "2026-11-01T12:00:00.000Z"
                storing_gateway (PObj sample_body) sample_body JNull
                eq_refl eq_refl) as [H1 [H2 _]].
  split; [exact H1|exact H2].
Defined.

(** C1, at an input where both handlers depart from it: connections c1 and
    c2 are subscribed to the vehicle of the sample, the gateway stores the
    row, and neither handler delivers anything to c1 or c2.  The REST
    handler answers 201 and sends nothing; the socket handler only
    acknowledges to the sender c9. *)
Theorem ingest_reaches_no_subscriber :
  subscribersOf sample_registry veh1 = {[ "c1"; "c2" ]} ∧
  subscribersOf sample_registry veh2 = {[ "c3" ]} ∧
  post_performance_data sample_registry "t1" "t2" storing_gateway sample_body =
    [DbInsert performance_table (rest_row sample_body);
     Respond 201 true "Performance data stored successfully" "t1"
       (Some (<[ "id" := JNum 1 ]> (rest_row sample_body)))] ∧
  on_performance_data "c9" "t0" storing_gateway (PObj sample_body) =
    [DbInsert performance_table (socket_row sample_body "t0");
     Emit "c9" "data-stored"
       (PObj {[ "success" := JBool true; "vehicleId" := veh1;
                "timestamp" := JStr "t0" ]})] ∧
  Forall (λ c,
      deliveries c (post_performance_data sample_registry "t1" "t2"
                      storing_gateway sample_body) = [] ∧
      deliveries c (on_performance_data "c9" "t0" storing_gateway
                      (PObj sample_body)) = [])
    ["c1"; "c2"; "c3"].
Proof.
  split; [by_compute|]. split; [by_compute|].
  split; [by rewrite post_performance_data_trace|].
  split; [reflexivity|].
  rewrite post_performance_data_trace.
  repeat constructor.
Qed.

(** C3, at an input the route accepts: A is the one subscriber of a
    vehicle with a UUID id, the body passes the schema and the row is
    stored, yet the REST handler pushes no message, to A or to anyone.
    The message it prepares carries the clock reading at the time of the
    push and the fields of the sample. *)
Theorem rest_ingest_pushes_nothing :
  let vc := run [SubscribeVehicle "A" veh_uuid] ∅ in
  subscribersOf vc veh_uuid = {[ "A" ]} ∧
  post_route vc "t1" "t2" storing_gateway (PObj uuid_body) =
    [DbInsert performance_table (rest_row uuid_body);
     Respond 201 true "Performance data stored successfully" "t1"
       (Some (<[ "id" := JNum 1 ]> (rest_row uuid_body)))] ∧
  broadcasts (post_route vc "t1" "t2" storing_gateway (PObj uuid_body)) = [] ∧
  deliveries "A" (post_route vc "t1" "t2" storing_gateway (PObj uuid_body)) = [] ∧
  send_if_open (broadcast_message "t2" (rest_row uuid_body)) "A" = [] ∧
  prop (broadcast_message "t2" (rest_row uuid_body)) "timestamp" = JStr "t2" ∧
  prop (broadcast_message "t2" (rest_row uuid_body)) "vehicle_id" = veh_uuid ∧
  prop (broadcast_message "t2" (rest_row uuid_body)) "rpm" = JNum 2500 ∧
  prop (broadcast_message "t2" (rest_row uuid_body)) "speed" = JNum 80.
Proof.
  cbv zeta. split; [by_compute|].
  unfold post_route. cbn [destructure].
  rewrite post_performance_data_trace. repeat split; by vm_compute.
Qed.

(** ** Further properties of the connection registry *)

Section registry_events.
Implicit Types (vc : registry) (v w : jsval) (c d : string) (ev : event).

Lemma handle_lookup ev vc w : (handle ev vc).1 !! w = act ev w (vc !! w).
Proof.
  destruct ev as [c v|c v|c]; simpl.
  - unfold on_subscribe_vehicle. destruct (truthy v); simpl; [|done].
    rewrite subscribe_eq, lookup_insert. unfold subscribersOf.
    case_bool_decide as Hvw; [subst w|].
    + by rewrite decide_True.
    + by rewrite decide_False.
  - unfold on_unsubscribe_vehicle. destruct (truthy v); simpl; [|done].
    rewrite unsubscribe_lookup.
    case_bool_decide as Hvw; [subst w|].
    + by rewrite decide_True.
    + by rewrite decide_False.
  - apply dropConnection_lookup.
Qed.

Lemma subscribed_handle ev vc v c :
  subscribed (handle ev vc).1 v c =
  if concerns v c ev then joins ev else subscribed vc v c.
Proof.
  unfold subscribed, subscribersOf. rewrite handle_lookup.
  destruct ev as [c' v'|c' v'|c']; simpl.
  - destruct (truthy v'); rewrite ?andb_false_r; simpl; [|done].
    rewrite andb_true_r.
    repeat case_bool_decide; simpl in *; subst; try done; set_solver.
  - destruct (truthy v'); rewrite ?andb_false_r; simpl; [|done].
    rewrite andb_true_r.
    destruct (vc !! v) as [s|] eqn:Hs;
    repeat case_bool_decide; simpl in *; subst; rewrite ?Hs in *; simpl in *;
      try case_decide; simpl in *; try done; set_solver.
  - destruct (vc !! v) as [s|]; simpl; unfold dropped;
    repeat case_bool_decide; repeat case_decide; simpl in *; subst;
      try done; set_solver.
Qed.

Lemma run_snoc evs ev vc : run (evs ++ [ev]) vc = (handle ev (run evs vc)).1.
Proof. by rewrite run_app. Qed.

Lemma subscribed_run evs vc v c :
  subscribed (run evs vc) v c =
  match last_concerning v c evs with
  | Some ev => joins ev
  | None => subscribed vc v c
  end.
Proof.
  unfold last_concerning.
  induction evs as [|ev evs IH] using rev_ind; [done|].
  rewrite run_snoc, subscribed_handle, filter_app, filter_cons, filter_nil.
  destruct (concerns v c ev) eqn:Hc.
  - rewrite decide_True by done. by rewrite last_snoc.
  - rewrite decide_False by (by intros []). by rewrite app_nil_r.
Qed.

Lemma act_skip ev w (o : option (gset string)) : applies ev w = false → act ev w o = o.
Proof. destruct ev; simpl; intros H; try done; by rewrite H. Qed.

Lemma act_comm ev1 ev2 w (o : option (gset string)) :
  connection_of ev1 ≠ connection_of ev2 →
  act ev1 w (act ev2 w o) = act ev2 w (act ev1 w o).
Proof.
  intros Hne.
  destruct (applies ev1 w) eqn:H1; [|by rewrite !(act_skip ev1)].
  destruct (applies ev2 w) eqn:H2; [|by rewrite !(act_skip ev2)].
  destruct ev1 as [c1 v1|c1 v1|c1], ev2 as [c2 v2|c2 v2|c2];
    simpl in H1, H2, Hne |- *; rewrite ?H1, ?H2; destruct o as [s|]; simpl.
  all: split_sets.
Qed.

Lemma handle_keys_truthy ev vc : keys_truthy vc → keys_truthy (handle ev vc).1.
Proof.
  unfold keys_truthy. rewrite !map_Forall_lookup. intros Hk w s.
  rewrite handle_lookup. destruct (vc !! w) as [s0|] eqn:Hw.
  - intros _. by eapply Hk.
  - destruct ev as [c v|c v|c]; simpl; try done.
    + destruct (truthy v) eqn:Hv; simpl; [|done].
      case_bool_decide; [by subst|done].
    + destruct (truthy v && bool_decide (v = w)); done.
Qed.

Lemma run_keys_truthy evs vc : keys_truthy vc → keys_truthy (run evs vc).
Proof.
  revert vc. induction evs as [|ev evs IH]; intros vc Hk; simpl; [done|].
  apply IH. by apply handle_keys_truthy.
Qed.

Lemma run_unsubscribe_all_lookup c (vs : list jsval) vc w :
  run (UnsubscribeVehicle c <$> vs) vc !! w =
  if decide (w ∈ vs ∧ truthy w = true)
  then act (UnsubscribeVehicle c w) w (vc !! w)
  else vc !! w.
Proof.
  revert vc. induction vs as [|v vs IH]; intros vc.
  - cbn [fmap list_fmap run]. case_decide as H; [|done]. destruct H as [H _]. by apply elem_of_nil in H.
  - rewrite fmap_cons. cbn [run]. rewrite IH, handle_lookup. simpl.
    destruct (truthy w) eqn:Hw; simpl.
    + destruct (decide (v = w)) as [->|Hvw].
      * rewrite Hw. simpl. rewrite !bool_decide_eq_true_2 by done.
        rewrite (decide_True (P := w ∈ w :: vs ∧ _)) by (split; [left|done]).
        case_decide; [|done].
        destruct (vc !! w) as [s|]; simpl; [|done].
        case_decide as He; simpl; [done|].
        assert (s ∖ {[c]} ∖ {[c]} = s ∖ {[c]}) as -> by set_solver.
        by rewrite decide_False.
      * rewrite (bool_decide_eq_false_2 (v = w)) by done. rewrite andb_false_r.
        rewrite bool_decide_eq_true_2 by done. simpl.
        destruct (decide (w ∈ vs ∧ true = true)) as [[Hin _]|Hn].
        -- rewrite decide_True; [done|]. split; [by right|done].
        -- rewrite decide_False; [done|]. intros [Hin _].
           apply elem_of_cons in Hin as [->|Hin]; [done|]. by apply Hn.
    + rewrite !decide_False by (by intros [_ ?]).
      destruct (truthy v && bool_decide (v = w)) eqn:Hg; [|done].
      apply andb_true_iff in Hg as [Hv Hvw]. apply bool_decide_eq_true_1 in Hvw.
      subst. congruence.
Qed.

End registry_events.

(** X1. After any sequence of events, from any registry, connection [c] is
    subscribed to vehicle [v] exactly when the last event that concerns the
    pair is a subscribe; with no such event the membership is the initial
    one.  Events of other connections and for other vehicles in between
    do not matter. *)
Theorem membership_follows_last_event (evs : list event) (vc : registry)
    (v : jsval) (c : string) :
  subscribed (run evs vc) v c =
  match last_concerning v c evs with
  | Some ev => joins ev
  | None => subscribed vc v c
  end.
Proof. apply subscribed_run. Qed.

(** X2. Two events of different connections can be handled in either
    order: the registry is the same. *)
Theorem events_of_different_connections_commute (ev1 ev2 : event) (vc : registry) :
  connection_of ev1 ≠ connection_of ev2 →
  run [ev1; ev2] vc = run [ev2; ev1] vc.
Proof.
  intros Hne. simpl. apply map_eq. intros w.
  rewrite !handle_lookup. symmetry. by apply act_comm.
Qed.

Lemma events_of_different_connections_commute_witness :
  connection_of (Disconnect "c1") ≠ connection_of (SubscribeVehicle "c4" veh1) ∧
  run [Disconnect "c1"; SubscribeVehicle "c4" veh1] sample_registry =
  run [SubscribeVehicle "c4" veh1; Disconnect "c1"] sample_registry.
Proof.
  assert (Hne : connection_of (Disconnect "c1") ≠
                connection_of (SubscribeVehicle "c4" veh1)) by by_compute.
  split; [exact Hne|].
  exact (events_of_different_connections_commute _ _ sample_registry Hne).
Defined.

(** X3. A vehicle id that fails the guard of the handlers (undefined, null,
    false, 0, the empty string) is never a key of a reachable registry. *)
Theorem falsy_id_never_tracked (evs : list event) (v : jsval) :
  truthy v = false → v ∉ trackedVehicles (run evs ∅).
Proof.
  intros Hv. pose proof (run_keys_truthy evs ∅ (map_Forall_empty _)) as Hk.
  unfold trackedVehicles. rewrite elem_of_dom. intros [s Hs].
  unfold keys_truthy in Hk. rewrite map_Forall_lookup in Hk.
  specialize (Hk v s Hs). congruence.
Qed.

Lemma falsy_id_never_tracked_witness :
  truthy (JNum 0) = false ∧
  JNum 0 ∉ trackedVehicles
    (run [SubscribeVehicle "c1" (JNum 0); SubscribeVehicle "c1" veh1] ∅).
Proof.
  split; [reflexivity|].
  apply (falsy_id_never_tracked
           [SubscribeVehicle "c1" (JNum 0); SubscribeVehicle "c1" veh1] (JNum 0)).
  reflexivity.
Defined.

(** X4. Subscribing a connection that was not subscribed and unsubscribing
    it again gives back the registry, provided no key maps to an empty
    set. *)
Theorem subscribe_then_unsubscribe_restores (v : jsval) (c : string) (vc : registry) :
  registry_inv vc → c ∉ subscribersOf vc v →
  unsubscribe v c (subscribe v c vc) = vc.
Proof.
  rewrite registry_inv_lookup. intros Hinv Hc. apply map_eq. intros w.
  rewrite unsubscribe_lookup, subscribe_eq.
  destruct (decide (v = w)) as [<-|Hne]; [|by rewrite lookup_insert_ne].
  rewrite lookup_insert_eq. simpl. unfold subscribersOf in *.
  destruct (vc !! v) as [s|] eqn:Hs; simpl in *.
  - assert (({[c]} ∪ s) ∖ {[c]} = s) as -> by set_solver.
    rewrite decide_False; [done|]. by eapply Hinv.
  - rewrite decide_True; [done|set_solver].
Qed.

Lemma subscribe_then_unsubscribe_restores_witness :
  registry_inv sample_registry ∧ ("c3" ∉ subscribersOf sample_registry veh1) ∧
  unsubscribe veh1 "c3" (subscribe veh1 "c3" sample_registry) = sample_registry.
Proof.
  assert (Hinv : registry_inv sample_registry) by by_compute.
  assert (Hc : "c3" ∉ subscribersOf sample_registry veh1) by by_compute.
  split; [exact Hinv|]. split; [exact Hc|].
  exact (subscribe_then_unsubscribe_restores veh1 "c3" sample_registry Hinv Hc).
Defined.

(** X5. On a registry whose keys passed the guard and have non-empty sets,
    the disconnect of [c] leaves what unsubscribing [c] from every tracked
    vehicle leaves. *)
Theorem disconnect_is_unsubscribe_everywhere (c : string) (vc : registry) :
  registry_inv vc → keys_truthy vc →
  (on_disconnect c vc).1 =
  run (UnsubscribeVehicle c <$> elements (trackedVehicles vc)) vc.
Proof.
  rewrite registry_inv_lookup. unfold keys_truthy. rewrite map_Forall_lookup.
  intros Hinv Hk. simpl. apply map_eq. intros w.
  rewrite dropConnection_lookup, run_unsubscribe_all_lookup.
  destruct (vc !! w) as [s|] eqn:Hw; simpl.
  - assert (Htw : truthy w = true) by by eapply Hk.
    rewrite decide_True.
    + cbn [act]. rewrite Htw, bool_decide_eq_true_2 by done. simpl.
      unfold dropped. destruct (decide (c ∈ s)); [done|].
      assert (s ∖ {[c]} = s) as -> by set_solver.
      rewrite decide_False; [done|by eapply Hinv].
    + split; [|done].
      rewrite elem_of_elements. unfold trackedVehicles. rewrite elem_of_dom. eauto.
  - case_decide; [|done]. cbn [act]. by destruct (truthy w && bool_decide (w = w)).
Qed.

Lemma disconnect_is_unsubscribe_everywhere_witness :
  registry_inv sample_registry ∧ keys_truthy sample_registry ∧
  (on_disconnect "c1" sample_registry).1 =
  run (UnsubscribeVehicle "c1" <$> elements (trackedVehicles sample_registry))
      sample_registry.
Proof.
  assert (Hinv : registry_inv sample_registry) by by_compute.
  assert (Hk : keys_truthy sample_registry) by by_compute.
  split; [exact Hinv|]. split; [exact Hk|].
  exact (disconnect_is_unsubscribe_everywhere "c1" sample_registry Hinv Hk).
Defined.

(** X6. A second disconnect of the same connection changes nothing, and
    the disconnect of a connection that is subscribed nowhere leaves any
    registry as it is. *)
Theorem disconnect_idempotent (c : string) (vc : registry) :
  dropConnection c (dropConnection c vc) = dropConnection c vc ∧
  ((∀ v, c ∉ subscribersOf vc v) → dropConnection c vc = vc).
Proof.
  split.
  - apply map_eq. intros w. rewrite !dropConnection_lookup.
    destruct (vc !! w) as [s|]; simpl; [|done].
    unfold dropped. repeat (case_decide; simpl); try done; set_solver.
  - intros Hno. apply map_eq. intros w. rewrite dropConnection_lookup.
    specialize (Hno w). unfold subscribersOf in Hno.
    destruct (vc !! w) as [s|]; simpl in *; [|done].
    unfold dropped. by rewrite decide_False.
Qed.

Lemma disconnect_idempotent_witness :
  (∀ v, "c9" ∉ subscribersOf sample_registry v) ∧
  dropConnection "c9" sample_registry = sample_registry.
Proof.
  assert (Hno : ∀ v, "c9" ∉ subscribersOf sample_registry v).
  { assert (Hall : map_Forall (λ _ (s : gset string), "c9" ∉ s) sample_registry)
      by by_compute.
    intros v. unfold subscribersOf.
    destruct (sample_registry !! v) as [s|] eqn:Hs; simpl.
    - exact (Hall v s Hs).
    - apply not_elem_of_empty. }
  split; [exact Hno|].
  exact (proj2 (disconnect_idempotent "c9" sample_registry) Hno).
Defined.

(** X7. Once every connection that ever subscribed has disconnected, the
    registry is empty again. *)
Theorem registry_empty_after_all_disconnect (evs : list event) (cs : list string) :
  (∀ c v, SubscribeVehicle c v ∈ evs → c ∈ cs) →
  run (evs ++ (Disconnect <$> cs)) ∅ = ∅.
Proof.
  intros Hall. apply map_empty. intros w.
  destruct (run (evs ++ (Disconnect <$> cs)) ∅ !! w) as [s|] eqn:Hw; [|done].
  exfalso.
  pose proof (run_inv (evs ++ (Disconnect <$> cs)) ∅ (map_Forall_empty _)) as Hinv.
  rewrite registry_inv_lookup in Hinv.
  destruct (set_choose_L s (Hinv w s Hw)) as [c Hc].
  assert (Hs : subscribed (run (evs ++ (Disconnect <$> cs)) ∅) w c = true).
  { apply bool_decide_eq_true_2. unfold subscribersOf. by rewrite Hw. }
  rewrite subscribed_run in Hs. unfold last_concerning in Hs.
  rewrite filter_app, last_app in Hs.
  destruct (last (filter (λ ev, concerns w c ev) (Disconnect <$> cs)))
    as [ev|] eqn:Hlast.
  - apply last_Some_elem_of, list_elem_of_filter in Hlast as [_ Hin].
    apply list_elem_of_fmap in Hin as [c' [-> _]]. done.
  - apply last_None in Hlast.
    destruct (last (filter (λ ev, concerns w c ev) evs)) as [ev|] eqn:Hlast';
      [|by vm_compute in Hs].
    apply last_Some_elem_of, list_elem_of_filter in Hlast' as [Hcon Hin].
    destruct ev as [c' v'|c' v'|c']; try done. simpl in Hcon.
    apply andb_prop_elim in Hcon as [Hcon _].
    apply andb_prop_elim in Hcon as [Hc' _].
    apply bool_decide_unpack in Hc'. subst c'.
    apply Hall in Hin.
    eapply (filter_nil_not_elem_of _ _ (Disconnect c)) in Hlast.
    + apply Hlast. apply list_elem_of_fmap. eauto.
    + simpl. by apply bool_decide_pack.
Qed.

Lemma registry_empty_after_all_disconnect_witness :
  (∀ c v, SubscribeVehicle c v ∈ [SubscribeVehicle "c1" veh1; SubscribeVehicle "c2" veh2]
          → c ∈ ["c2"; "c1"]) ∧
  run ([SubscribeVehicle "c1" veh1; SubscribeVehicle "c2" veh2] ++
       (Disconnect <$> ["c2"; "c1"])) ∅ = ∅.
Proof.
  assert (Hall : ∀ c v,
    SubscribeVehicle c v ∈ [SubscribeVehicle "c1" veh1; SubscribeVehicle "c2" veh2]
    → c ∈ ["c2"; "c1"]).
  { intros c v. rewrite !elem_of_cons, elem_of_nil.
    intros [[= -> _]|[[= -> _]|[]]]; by_compute. }
  split; [exact Hall|].
  exact (registry_empty_after_all_disconnect _ _ Hall).
Defined.

(** ** Further properties of the ingest handlers *)

(** X8. Whatever arrives on 'performance-data' and whatever the gateway
    does, the socket handler sends exactly one message, to the sender, and
    calls the gateway at most once. *)
Theorem socket_ingest_answers_sender_once (sid now : string)
    (insert : object → outcome) (data : payload) :
  length (deliveries sid (on_performance_data sid now insert data)) = 1 ∧
  (∀ c, c ≠ sid → deliveries c (on_performance_data sid now insert data) = []) ∧
  (length (inserted_rows (on_performance_data sid now insert data)) ≤ 1)%nat.
Proof.
  unfold on_performance_data.
  destruct (destructure data) as [o|]; [destruct (truthy (prop o "vehicle_id"))|];
    simpl; [destruct (insert (socket_row o now))| |]; unfold deliveries; simpl;
    rewrite bool_decide_eq_true_2 by done; simpl;
    (split; [done|]); (split; [|lia]);
    intros c Hc; by rewrite bool_decide_eq_false_2.
Qed.

Lemma socket_ingest_answers_sender_once_witness :
  "c1" ≠ "c9" ∧
  deliveries "c1" (on_performance_data "c9" "t0" storing_gateway (PVal JNull)) = [].
Proof.
  assert (Hne : "c1" ≠ "c9") by by_compute.
  split; [exact Hne|].
  exact (proj1 (proj2 (socket_ingest_answers_sender_once "c9" "t0" storing_gateway
                         (PVal JNull))) "c1" Hne).
Defined.

(** X9. The socket handler emits 'data-stored' exactly when the sample has
    a usable vehicle id and the gateway stored the row; the acknowledgement
    then carries the vehicle id of the sample and the timestamp written
    into the row. *)
Theorem socket_ack_iff_stored (sid now : string) (insert : object → outcome)
    (data : payload) :
  (emitted sid "data-stored" (on_performance_data sid now insert data) ≠ [] ↔
   ∃ o d, destructure data = Some o ∧ truthy (prop o "vehicle_id") = true ∧
          insert (socket_row o now) = Stored d) ∧
  (∀ p, p ∈ emitted sid "data-stored" (on_performance_data sid now insert data) →
        ∃ o row, destructure data = Some o ∧
                 inserted_rows (on_performance_data sid now insert data) = [row] ∧
                 p = PObj {[ "success" := JBool true;
                             "vehicleId" := prop row "vehicle_id";
                             "timestamp" := prop row "timestamp" ]}).
Proof.
  unfold on_performance_data, emitted.
  destruct (destructure data) as [o|] eqn:Hd.
  - destruct (truthy (prop o "vehicle_id")) eqn:Hv; simpl.
    + destruct (insert (socket_row o now)) as [d|e|m] eqn:Hi; simpl;
        rewrite bool_decide_eq_true_2 by done; simpl.
      * split.
        -- split; [intros _; by exists o, d|done].
        -- intros p Hp. apply list_elem_of_singleton in Hp as ->.
           exists o, (socket_row o now). done.
      * split; [|by intros p Hp; apply elem_of_nil in Hp].
        split; [done|]. intros (o' & d & [= <-] & _ & Hi'). congruence.
      * split; [|by intros p Hp; apply elem_of_nil in Hp].
        split; [done|]. intros (o' & d & [= <-] & _ & Hi'). congruence.
    + rewrite bool_decide_eq_true_2 by done. simpl.
      split; [|by intros p Hp; apply elem_of_nil in Hp].
      split; [done|]. intros (o' & d & [= <-] & Hv' & _). congruence.
  - simpl. rewrite bool_decide_eq_true_2 by done. simpl.
    split; [|by intros p Hp; apply elem_of_nil in Hp].
    split; [done|]. by intros (o' & d & ? & _).
Qed.

Lemma socket_ack_iff_stored_witness :
  PObj {[ "success" := JBool true; "vehicleId" := veh1; "timestamp" := JStr "t0" ]}
    ∈ emitted "c9" "data-stored"
        (on_performance_data "c9" "t0" storing_gateway (PObj sample_body)) ∧
  ∃ o row, destructure (PObj sample_body) = Some o ∧
    inserted_rows (on_performance_data "c9" "t0" storing_gateway (PObj sample_body))
      = [row] ∧
    PObj {[ "success" := JBool true; "vehicleId" := veh1; "timestamp" := JStr "t0" ]} =
    PObj {[ "success" := JBool true; "vehicleId" := prop row "vehicle_id";
            "timestamp" := prop row "timestamp" ]}.
Proof.
  assert (Hin : PObj {[ "success" := JBool true; "vehicleId" := veh1;
                        "timestamp" := JStr "t0" ]}
                  ∈ emitted "c9" "data-stored"
                      (on_performance_data "c9" "t0" storing_gateway (PObj sample_body))).
  { vm_compute. apply list_elem_of_here. }
  split; [exact Hin|].
  exact (proj2 (socket_ack_iff_stored "c9" "t0" storing_gateway (PObj sample_body))
           _ Hin).
Defined.

(** X10. A 'performance-data' message without a usable vehicle id
    (no object, or a falsy [vehicle_id]) never reaches the gateway: the
    only effect is one 'data-error' to the sender. *)
Theorem socket_ingest_rejects_missing_id (sid now : string)
    (insert : object → outcome) (data : payload) :
  (∀ o, destructure data = Some o → truthy (prop o "vehicle_id") = false) →
  inserted_rows (on_performance_data sid now insert data) = [] ∧
  ∃ msg, on_performance_data sid now insert data =
         [Emit sid "data-error" (PObj {[ "message" := JStr msg ]})].
Proof.
  intros Hbad. unfold on_performance_data.
  destruct (destructure data) as [o|]; [|by eauto].
  rewrite (Hbad o eq_refl). simpl. by eauto.
Qed.

Lemma socket_ingest_rejects_missing_id_witness :
  (∀ o, destructure (PObj {[ "rpm" := JNum 900 ]}) = Some o →
        truthy (prop o "vehicle_id") = false) ∧
  inserted_rows (on_performance_data "c9" "t0" storing_gateway
                   (PObj {[ "rpm" := JNum 900 ]})) = [].
Proof.
  assert (Hbad : ∀ o, destructure (PObj {[ "rpm" := JNum 900 ]}) = Some o →
                      truthy (prop o "vehicle_id") = false).
  { intros o [= <-]. reflexivity. }
  split; [exact Hbad|].
  exact (proj1 (socket_ingest_rejects_missing_id "c9" "t0" storing_gateway _ Hbad)).
Defined.

(** X11. For every [req.body], registry and gateway, the REST handler
    answers exactly once and sends nothing to any socket.  A body that
    cannot be destructured ([undefined] or [null]) is answered 500 and
    never reaches the gateway; any other body gives exactly one row to the
    gateway and is answered 201 when the row was stored and 500
    otherwise. *)
Theorem rest_ingest_one_insert_one_reply (vc : registry) (t1 t2 : string)
    (insert : object → outcome) (body : payload) :
  inserted_rows (post_route vc t1 t2 insert body) =
    match destructure body with
    | Some o => [rest_row o]
    | None => []
    end ∧
  responses (post_route vc t1 t2 insert body) =
    [match destructure body with
     | Some o => if failed (insert (rest_row o)) then (500%nat, false)
                 else (201%nat, true)
     | None => (500%nat, false)
     end] ∧
  broadcasts (post_route vc t1 t2 insert body) = [] ∧
  ∀ c, deliveries c (post_route vc t1 t2 insert body) = [].
Proof.
  unfold post_route. destruct (destructure body) as [o|]; [|done].
  rewrite post_performance_data_trace.
  by destruct (insert (rest_row o)).
Qed.

(** X12. Only the known columns reach the gateway: both rows have a fixed
    set of keys, and a key of the sample outside it changes nothing in
    the row. *)
Theorem unknown_fields_never_stored (o : object) (now : string) (k : string) (x : jsval) :
  dom (rest_row o) = list_to_set rest_columns ∧
  dom (socket_row o now) = list_to_set socket_columns ∧
  (k ∉ rest_columns →
   rest_row (<[ k := x ]> o) = rest_row o ∧
   socket_row (<[ k := x ]> o) now = socket_row o now).
Proof.
  split; [|split].
  - unfold rest_row. rewrite !dom_insert_L, dom_singleton_L. set_solver.
  - unfold socket_row. rewrite !dom_insert_L, dom_singleton_L. set_solver.
  - unfold rest_columns, readings. rewrite !not_elem_of_cons.
    intros (? & ? & ? & ? & ? & ? & ? & ? & ? & _).
    unfold rest_row, socket_row, prop. by rewrite !lookup_insert_ne.
Qed.

Lemma unknown_fields_never_stored_witness :
  ("id" ∉ rest_columns) ∧
  rest_row (<[ "id" := JNum 42 ]> sample_body) = rest_row sample_body ∧
  socket_row (<[ "id" := JNum 42 ]> sample_body) "t0" = socket_row sample_body "t0".
Proof.
  assert (Hk : "id" ∉ rest_columns) by by_compute.
  split; [exact Hk|].
  exact (proj2 (proj2 (unknown_fields_never_stored sample_body "t0" "id" (JNum 42))) Hk).
Defined.

(** X20. Each of the eight readings goes into the row under its own
    name: the REST handler copies it as it is; the socket handler copies
    a truthy reading and stores [null] for every other value. *)
Theorem readings_reach_row (o : object) (now k : string) :
  k ∈ readings →
  prop (rest_row o) k = prop o k ∧
  prop (socket_row o now) k = (if truthy (prop o k) then prop o k else JNull).
Proof.
  intros Hk. split; [by apply rest_row_reading|].
  by rewrite socket_row_reading.
Qed.

Lemma readings_reach_row_witness :
  "batteryVoltage" ∈ readings ∧
  prop (rest_row sample_body) "batteryVoltage" = prop sample_body "batteryVoltage" ∧
  prop (socket_row sample_body "t0") "batteryVoltage" =
    (if truthy (prop sample_body "batteryVoltage")
     then prop sample_body "batteryVoltage" else JNull).
Proof.
  assert (Hk : "batteryVoltage" ∈ readings) by by_compute.
  split; [exact Hk|].
  exact (readings_reach_row sample_body "t0" "batteryVoltage" Hk).
Defined.

(** ** Facts about splitting and the middlewares *)

Section split_facts.
Implicit Types (s : string) (sep a : Ascii.ascii).

Lemma split_on_nonempty sep s : split_on sep s ≠ [].
Proof.
  induction s as [|a s IH]; simpl; [done|].
  destruct (Ascii.eqb a sep); [done|]. by destruct (split_on sep s).
Qed.

Lemma split_on_pieces sep s :
  Forall (λ piece, has_char sep piece = false) (split_on sep s).
Proof.
  induction s as [|a s IH]; simpl.
  - by repeat constructor.
  - destruct (Ascii.eqb a sep) eqn:Ha.
    + by constructor.
    + destruct (split_on sep s) as [|piece rest]; [by repeat constructor; simpl; rewrite Ha|].
      inversion IH as [|? ? Hp Hr]; subst. constructor; [|done].
      simpl. by rewrite Ha.
Qed.

Lemma split_on_app sep s1 s2 :
  has_char sep s1 = false →
  split_on sep (s1 ++ String sep s2) = s1 :: split_on sep s2.
Proof.
  induction s1 as [|a s1 IH]; simpl.
  - intros _. by rewrite Ascii.eqb_refl.
  - intros H. apply orb_false_iff in H as [Ha H].
    rewrite Ha, IH by done. done.
Qed.

End split_facts.

Section string_facts.
Implicit Types (s : string).

Lemma string_app_assoc s1 s2 s3 : (s1 ++ s2) ++ s3 = s1 ++ (s2 ++ s3).
Proof.
  induction s1 as [|a s1 IH]; [done|].
  change (String a ((s1 ++ s2) ++ s3) = String a (s1 ++ (s2 ++ s3))).
  by rewrite IH.
Qed.

Lemma string_app_nonempty s1 (a : Ascii.ascii) s2 :
  String.eqb (s1 ++ String a s2) EmptyString = false.
Proof. by destruct s1. Qed.

End string_facts.

Section auth_facts.
Implicit Types (getUser : string → getUser_result) (h tok : string).

Lemma bearer_token_second_field (scheme rest : string) :
  has_char space scheme = false →
  bearer_token (Some (scheme ++ String space rest)) =
  JStr (default EmptyString (head (split_on space rest))).
Proof.
  intros Hs. unfold bearer_token. simpl.
  rewrite string_app_nonempty. simpl.
  rewrite split_on_app by done. simpl.
  rewrite <- head_lookup.
  pose proof (split_on_nonempty space rest) as Hne.
  by destruct (split_on space rest).
Qed.

Lemma bearer_token_clean (header : option string) (tok : string) :
  bearer_token header = JStr tok → has_char space tok = false.
Proof.
  unfold bearer_token. destruct header as [h|]; [|done].
  destruct (truthy (JStr h)) eqn:Hh.
  - destruct (split_on space h !! 1%nat) as [piece|] eqn:Hp; [|done].
    intros [= <-].
    exact (Forall_lookup_1 _ _ _ _ (split_on_pieces space h) Hp).
  - intros [= <-]. simpl in Hh. apply negb_false_iff, String.eqb_eq in Hh. by subst.
Qed.

End auth_facts.

Section query_facts.

Lemma aggregate_query_numbering_text (v f t g : jsval) :
  query (aggregate_query v f t g) =
  select_clause (date_format g) ++
  numbered 1 (filter (λ c, truthy c.2) (conditions v f t)) ++
  " GROUP BY period ORDER BY period".
Proof.
  unfold aggregate_query, filter_step, conditions.
  rewrite !filter_cons, filter_nil. simpl.
  destruct (truthy v), (truthy f), (truthy t); simpl;
    rewrite ?decide_True by done; rewrite ?decide_False by (by intros []);
    simpl; rewrite ?string_app_assoc; reflexivity.
Qed.

End query_facts.

(** ** Properties of the authentication middleware *)

(** X13. [authenticateToken] either finds no token, answers 401 and never
    asks the identity service, or asks it once, about a token that is not
    empty and contains no space; the request passes exactly when the
    service returns a user and no error for that token. *)
Theorem auth_looks_up_one_clean_token (getUser : string → getUser_result)
    (authHeader : option string) :
  authenticateToken getUser authHeader = ([], Denied 401 "Access token is required") ∨
  ∃ token,
    (authenticateToken getUser authHeader).1 = [token] ∧
    token ≠ EmptyString ∧ has_char space token = false ∧
    ∀ user, (authenticateToken getUser authHeader).2 = Passed user ↔
            getUser token = GotUser (Some user) None.
Proof.
  unfold authenticateToken.
  destruct (bearer_token authHeader) as [| |b|n|token] eqn:Htok; try by left.
  destruct (truthy (JStr token)) eqn:Ht; simpl; [right|by left].
  exists token. split; [done|]. split.
  - intros ->. done.
  - split; [by eapply bearer_token_clean|].
    intros user. destruct (getUser token) as [[u|] [e|]|name]; simpl;
      try (split; intros; congruence).
    repeat case_match; split; intros; congruence.
Qed.

(** X14. The middleware does not look at the scheme word of the header:
    whatever stands before the first space, the outcome is that of the
    same header with [Bearer]. *)
Theorem auth_ignores_scheme (getUser : string → getUser_result) (scheme rest : string) :
  has_char space scheme = false →
  authenticateToken getUser (Some (scheme ++ " " ++ rest)) =
  authenticateToken getUser (Some ("Bearer " ++ rest)).
Proof.
  intros Hs. unfold authenticateToken.
  change (scheme ++ " " ++ rest) with (scheme ++ String space rest).
  change ("Bearer " ++ rest) with ("Bearer" ++ String space rest).
  by rewrite !bearer_token_second_field.
Qed.

Lemma auth_ignores_scheme_witness :
  has_char space "Basic" = false ∧
  authenticateToken (λ _, GotUser (Some ∅) None) (Some ("Basic" ++ " " ++ "abc")) =
  authenticateToken (λ _, GotUser (Some ∅) None) (Some ("Bearer " ++ "abc")).
Proof.
  split; [reflexivity|].
  apply (auth_ignores_scheme (λ _, GotUser (Some ∅) None) "Basic" "abc").
  reflexivity.
Defined.

(** ** Properties of the aggregation query *)

(** X15. The builder keeps the placeholder counter one ahead of the
    parameters: the parameters are the truthy ones among vehicle id, from
    date and to date, in that order, and the query has one condition per
    parameter, numbered $1, $2, ... in the same order. *)
Theorem aggregate_query_numbering (vehicle_id from_date to_date group_by : jsval) :
  let q := aggregate_query vehicle_id from_date to_date group_by in
  let present := filter (λ c, truthy c.2) (conditions vehicle_id from_date to_date) in
  queryParams q = present.*2 ∧
  paramIndex q = S (length (queryParams q)) ∧
  query q = select_clause (date_format group_by) ++ numbered 1 present ++
            " GROUP BY period ORDER BY period".
Proof.
  cbv zeta. unfold aggregate_query, filter_step, conditions.
  rewrite !filter_cons, filter_nil. simpl.
  destruct (truthy vehicle_id), (truthy from_date), (truthy to_date); simpl;
    rewrite ?decide_True by done; rewrite ?decide_False by (by intros []);
    simpl; (split; [done|]); (split; [done|]);
    rewrite ?string_app_assoc; reflexivity.
Qed.

(** X16. No value of the request is spliced into the SQL text: the text
    depends only on which of the three filters are present and on the
    date format, which is one of four constants. *)
Theorem aggregate_query_text_fixed (v f t g v' f' t' g' : jsval) :
  date_format g ∈ ["YYYY-MM-DD HH24:00:00"; "YYYY-MM-DD";
                   "YYYY-" ++ dq ++ "W" ++ dq ++ "WW"; "YYYY-MM"] ∧
  (truthy v = truthy v' → truthy f = truthy f' → truthy t = truthy t' →
   date_format g = date_format g' →
   query (aggregate_query v f t g) = query (aggregate_query v' f' t' g')).
Proof.
  split.
  - unfold date_format. repeat case_match; set_solver.
  - intros Hv Hf Ht Hg.
    pose proof (aggregate_query_numbering_text v f t g) as ->.
    pose proof (aggregate_query_numbering_text v' f' t' g') as ->.
    rewrite Hg. unfold conditions. rewrite !filter_cons, !filter_nil. simpl.
    rewrite <- Hv, <- Hf, <- Ht.
    destruct (truthy v), (truthy f), (truthy t); reflexivity.
Qed.

Lemma aggregate_query_text_fixed_witness :
  truthy (JStr "veh-1") = truthy (JStr "x' OR 1=1 --") ∧
  query (aggregate_query (JStr "veh-1") JUndefined JNull (JStr "day")) =
  query (aggregate_query (JStr "x' OR 1=1 --") JNull JUndefined (JStr "DROP")).
Proof.
  split; [reflexivity|].
  apply (proj2 (aggregate_query_text_fixed (JStr "veh-1") JUndefined JNull (JStr "day")
                  (JStr "x' OR 1=1 --") JNull JUndefined (JStr "DROP")));
    reflexivity.
Defined.

(** ** Properties of [GET /:id] *)

(** X17. With filter type 'range' or 'week', a request that lacks
    [fromDate] or [toDate] is answered 400 and the database is not
    queried. *)
Theorem range_filter_requires_both_dates (week_window : jsval → option (string * string))
    (removeNulls : object → object)
    (select : string → string → string → select_result)
    (t_window t_from t_to t_reply id : string) (filterType date fromDate toDate : jsval) :
  filterType = JStr "range" ∨ filterType = JStr "week" →
  truthy fromDate = false ∨ truthy toDate = false →
  get_performance_data week_window removeNulls select t_window t_from t_to t_reply
    id filterType date fromDate toDate =
  [Reply 400 false "fromDate and toDate are required for range filtering"
     t_reply None None].
Proof.
  intros Hft Hmissing. unfold get_performance_data, date_window.
  assert (negb (truthy fromDate) || negb (truthy toDate) = true) as Hm.
  { destruct Hmissing as [-> | ->]; [done|]. by rewrite orb_true_r. }
  destruct Hft as [-> | ->]; simpl; by rewrite Hm.
Qed.

Lemma range_filter_requires_both_dates_witness :
  (JStr "week" = JStr "range" ∨ JStr "week" = JStr "week") ∧
  (truthy (JStr "2024-05-01") = false ∨ truthy JUndefined = false) ∧
  get_performance_data (λ _, None) id (λ _ _ _, Rows (Some []))
    "t" "t" "t" "t4" "veh-1" (JStr "week") JUndefined (JStr "2024-05-01") JUndefined =
  [Reply 400 false "fromDate and toDate are required for range filtering"
     "t4" None None].
Proof.
  split; [by right|]. split; [by right|].
  apply range_filter_requires_both_dates; by right.
Defined.

(** X18. Apart from the 'weekend' filter, every window the handler
    queries runs from the first to the last millisecond of a UTC day
    as text; for 'day' and for an unknown or missing filter type both
    bounds are of the same day, and an unknown or missing filter type
    takes the day of the clock whatever [date] says. *)
Theorem date_window_whole_days (week_window : jsval → option (string * string)) (now : string)
    (filterType date fromDate toDate : jsval) (gte lte : string) :
  filterType ≠ JStr "weekend" →
  date_window week_window now filterType date fromDate toDate = Window gte lte →
  ∃ d1 d2, gte = day_start d1 ∧ lte = day_end d2 ∧
    (filterType ≠ JStr "range" → filterType ≠ JStr "week" → d1 = d2) ∧
    (filterType ≠ JStr "range" → filterType ≠ JStr "week" →
     filterType ≠ JStr "day" → d1 = date_part now).
Proof.
  intros Hw. unfold date_window, strict_eq.
  destruct (decide (filterType = JStr "day")) as [->|Hd].
  { rewrite bool_decide_eq_true_2 by done. intros [= <- <-].
    eexists _, _. by repeat split. }
  rewrite (bool_decide_eq_false_2 (filterType = JStr "day")) by done.
  rewrite (bool_decide_eq_false_2 (filterType = JStr "weekend")) by done.
  destruct (bool_decide (filterType = JStr "range") ||
            bool_decide (filterType = JStr "week")) eqn:Hr.
  - destruct (negb (truthy fromDate) || negb (truthy toDate)); [done|].
    intros [= <- <-]. eexists _, _. split; [done|]. split; [done|].
    apply orb_true_iff in Hr as [Hr|Hr]; apply bool_decide_eq_true_1 in Hr;
      split; intros; done.
  - intros [= <- <-]. eexists _, _. by repeat split.
Qed.

Lemma date_window_whole_days_witness :
  JStr "month" ≠ JStr "weekend" ∧
  ∃ d1 d2, "2026-11-01T00:00:00.000Z" = day_start d1 ∧
           "2026-11-01T23:59:59.999Z" = day_end d2 ∧
    (JStr "month" ≠ JStr "range" → JStr "month" ≠ JStr "week" → d1 = d2) ∧
    (JStr "month" ≠ JStr "range" → JStr "month" ≠ JStr "week" →
     JStr "month" ≠ JStr "day" → d1 = date_part "2026-11-01T10:20:30.000Z").
Proof.
  assert (Hw : JStr "month" ≠ JStr "weekend") by by_compute.
  split; [exact Hw|].
  exact (date_window_whole_days (λ _, None) "2026-11-01T10:20:30.000Z"
           (JStr "month") (JStr "2024-05-05") JUndefined JUndefined
           "2026-11-01T00:00:00.000Z" "2026-11-01T23:59:59.999Z" Hw eq_refl).
Defined.

(** X19. [GET /:id] queries the database at most once, for the vehicle of
    the path, and replies exactly once; when the database returns rows
    the reply is 200 with one record per row and [totalRecords] their
    number - also for no rows at all, which is not a 404. *)
Theorem get_by_id_one_query_one_reply (week_window : jsval → option (string * string))
    (removeNulls : object → object)
    (select : string → string → string → select_result)
    (t_window t_from t_to t_reply id : string) (filterType date fromDate toDate : jsval) :
  let tr := get_performance_data week_window removeNulls select
              t_window t_from t_to t_reply id filterType date fromDate toDate in
  (∃ reply, (tr = [reply] ∨ ∃ gte lte, tr = [Select id gte lte; reply]) ∧
            ∃ st ok msg data meta, reply = Reply st ok msg t_reply data meta) ∧
  (∀ gte lte rows,
     date_window week_window t_window filterType date fromDate toDate = Window gte lte →
     select id gte lte = Rows (Some rows) →
     ∃ data meta, tr = [Select id gte lte;
                        Reply 200 true "Performance data retrieved successfully"
                          t_reply (Some data) (Some meta)] ∧
                  length data = length rows ∧
                  meta_totalRecords meta = length rows).
Proof.
  cbv zeta. unfold get_performance_data. split.
  - destruct (date_window _ _ _ _ _ _) as [gte lte| |].
    + destruct (select id gte lte) as [[rows|]|m|]; eexists;
        (split; [right; by do 2 eexists|]); by do 5 eexists.
    + eexists. split; [by left|]. by do 5 eexists.
    + eexists. split; [by left|]. by do 5 eexists.
  - intros gte lte rows -> ->. do 2 eexists. split; [done|].
    simpl. by rewrite length_fmap.
Qed.

Lemma get_by_id_one_query_one_reply_witness :
  date_window (λ _, None) "2026-11-01T10:20:30.000Z"
    (JStr "day") (JStr "2024-05-05") JUndefined JUndefined =
    Window "2024-05-05T00:00:00.000Z" "2024-05-05T23:59:59.999Z" ∧
  ∃ data meta,
    get_performance_data (λ _, None) id (λ _ _ _, Rows (Some []))
      "2026-11-01T10:20:30.000Z" "t2" "t3" "t4" "veh-1"
      (JStr "day") (JStr "2024-05-05") JUndefined JUndefined =
    [Select "veh-1" "2024-05-05T00:00:00.000Z" "2024-05-05T23:59:59.999Z";
     Reply 200 true "Performance data retrieved successfully" "t4"
       (Some data) (Some meta)] ∧
    length data = length (@nil object) ∧ meta_totalRecords meta = length (@nil object).
Proof.
  split; [reflexivity|].
  exact (proj2 (get_by_id_one_query_one_reply (λ _, None) id
                  (λ _ _ _, Rows (Some [])) "2026-11-01T10:20:30.000Z" "t2" "t3" "t4"
                  "veh-1" (JStr "day") (JStr "2024-05-05") JUndefined JUndefined)
           _ _ [] eq_refl eq_refl).
Defined.
